(** * A shallow embedding of the 6502 core of the NES web emulator

    Sources: [src/execute.js] (addressing-mode resolvers and instruction
    handlers) and the [main.js] revision at the top of
    [src/unnamed/part_000] (the fetch-decode-execute loop [cpuCycle] /
    [decodeInstruction] / [executeInstruction]), together with the
    [decode.js] opcode table found in the same file.

    JavaScript numbers that occur here are integers, so they are modelled
    by [Z]; the coercions JavaScript performs when an array reaches an
    arithmetic or bitwise operator are modelled explicitly, since the loop
    hands the resolvers its rest-parameter array [args]. *)

From Stdlib Require Import ZArith List Lia Bool String Ascii.
Import ListNotations.
Open Scope Z_scope.

Module Cpu6502.

(** ** JavaScript coercions that the loop relies on *)

Definition digit_char (d : Z) : ascii := ascii_of_nat (48 + Z.to_nat d).

Fixpoint dec_digits (fuel : nat) (n : Z) (acc : string) : string :=
  match fuel with
  | O => acc
  | S f =>
      let acc' := String (digit_char (n mod 10)) acc in
      if n <? 10 then acc' else dec_digits f (n / 10) acc'
  end.

(** [String(n)] for an integer [n]. *)
Definition dec (n : Z) : string :=
  if n <? 0 then String "-" (dec_digits (S (Z.to_nat (Z.log2 (- n)))) (- n) EmptyString)
  else dec_digits (S (Z.to_nat (Z.log2 n))) n EmptyString.

Fixpoint parse_digits (s : string) (acc : Z) : option Z :=
  match s with
  | EmptyString => Some acc
  | String c s' =>
      let d := Z.of_nat (nat_of_ascii c) - 48 in
      if (0 <=? d) && (d <=? 9) then parse_digits s' (acc * 10 + d) else None
  end.

(** [Number(s)] on the strings that arise here (decimal integers, the
    empty string, or strings containing a comma or letters); [None] is
    [NaN]. *)
Definition js_to_number (s : string) : option Z :=
  match s with
  | EmptyString => Some 0
  | String "-" (String _ _ as s') => option_map Z.opp (parse_digits s' 0)
  | String _ _ => parse_digits s 0
  end.

(** [ToInt32], applied by every bitwise operator; [NaN] becomes 0. *)
Definition to_int32 (v : option Z) : Z :=
  match v with
  | None => 0
  | Some z => let w := z mod 2 ^ 32 in if w >=? 2 ^ 31 then w - 2 ^ 32 else w
  end.

(** An element of [args] is a byte read from [mainMemory], or [undefined]
    when the read was outside the array. *)
Definition elem_to_string (e : option Z) : string :=
  match e with Some b => dec b | None => EmptyString end.

(** [Array.prototype.toString]: the elements joined with commas. *)
Fixpoint array_to_string (l : list (option Z)) : string :=
  match l with
  | [] => EmptyString
  | [e] => elem_to_string e
  | e :: l' => elem_to_string e ++ "," ++ array_to_string l'
  end.

(** A value passed as a resolver argument: a number, [undefined] (a
    missing parameter) or the [args] array of [executeInstruction]. *)
Inductive jsarg :=
| JN (z : Z)
| JU
| JA (l : list (option Z)).

(** [ToNumber] of an argument. *)
Definition js_number (v : jsarg) : option Z :=
  match v with
  | JN z => Some z
  | JU => None
  | JA l => js_to_number (array_to_string l)
  end.

(** [v + n] for a number [n]: numeric addition, or string concatenation
    when [v] is an array. *)
Definition js_add (v : jsarg) (n : Z) : option Z :=
  match v with
  | JN z => Some (z + n)
  | JU => None
  | JA l => js_to_number (array_to_string l ++ dec n)
  end.

(** [v op k] for a bitwise operator [op]. *)
Definition int32_of (v : jsarg) : Z := to_int32 (js_number v).

(** ** Machine state *)

Record Regs := mkRegs { a : Z; x : Z; y : Z; pc : Z; sp : Z; status : Z }.

(** [mainMemory]: a [Uint8Array(0x10000)]. *)
Definition Mem := Z -> Z.

Definition in_mem (i : Z) : bool := (0 <=? i) && (i <? 0x10000).

(** [mainMemory[i]] where [i] may be out of range ([None] is [undefined]). *)
Definition mem_get (m : Mem) (i : Z) : option Z := if in_mem i then Some (m i) else None.

(** [mainMemory[i] = v]: typed-array store, [ToUint8] of the value, out of
    range writes are dropped. *)
Definition mem_set (m : Mem) (i v : Z) : Mem :=
  fun j => if in_mem i && (j =? i) then Z.land v 0xFF else m j.

Definition with_a (r : Regs) (v : Z) : Regs := mkRegs v (x r) (y r) (pc r) (sp r) (status r).
Definition with_x (r : Regs) (v : Z) : Regs := mkRegs (a r) v (y r) (pc r) (sp r) (status r).
Definition with_y (r : Regs) (v : Z) : Regs := mkRegs (a r) (x r) v (pc r) (sp r) (status r).
Definition with_pc (r : Regs) (v : Z) : Regs := mkRegs (a r) (x r) (y r) v (sp r) (status r).
Definition with_sp (r : Regs) (v : Z) : Regs := mkRegs (a r) (x r) (y r) (pc r) v (status r).
Definition with_status (r : Regs) (v : Z) : Regs := mkRegs (a r) (x r) (y r) (pc r) (sp r) v.

(** JavaScript truthiness of a number. *)
Definition truthy (z : Z) : bool := negb (z =? 0).

(** [cond ? (status | mask) : (status & ~mask)] *)
Definition flag_if (c : bool) (mask s : Z) : Z :=
  if c then Z.lor s mask else Z.land s (Z.lnot mask).

(** The two lines every load/arithmetic handler ends with: zero flag from
    [v === 0], negative flag from [v & 0x80]. *)
Definition set_zn (v s : Z) : Z :=
  flag_if (truthy (Z.land v 0x80)) 0x80 (flag_if (v =? 0) 0x02 s).

(** ** Addressing-mode resolvers ([execute.js], lines 48-179)

    A resolver is called with numbers when used directly, and with the
    [args] array when called by [executeInstruction]; both are [jsarg]s. *)

(** What a resolver hands to an instruction handler: a number, [NaN],
    the [args] array itself, [undefined], [null], or the string
    ["accumulator"]. *)
Inductive Operand :=
| ONum (z : Z)
| ONaN
| OArr (l : list (option Z))
| OUndef
| ONull
| OAcc.

(** [v & mask] where [v + n] or [ToNumber] may be [NaN]. *)
Definition js_and_opt (v : option Z) (mask : Z) : Z := Z.land (to_int32 v) mask.

(** [operand << 8] *)
Definition shl8 (v : jsarg) : Z := to_int32 (Some (Z.shiftl (int32_of v) 8)).

Definition getAccumulator : Operand := OAcc.

Definition getAbsolute (operand1 operand2 : jsarg) : Z :=
  Z.lor (shl8 operand2) (int32_of operand1).

Definition getAbsoluteX (r : Regs) (operand1 operand2 : jsarg) : Z :=
  Z.land (getAbsolute operand1 operand2 + x r) 0xFFFF.

Definition getAbsoluteY (r : Regs) (operand1 operand2 : jsarg) : Z :=
  Z.land (getAbsolute operand1 operand2 + y r) 0xFFFF.

Definition getImmediate (r : Regs) : Z := Z.land (pc r - 1) 0xFFFF.

Definition getImplied : Operand := ONull.

Definition getIndirect (m : Mem) (operand1 operand2 : jsarg) : Z :=
  let addressL := Z.land (Z.lor (shl8 operand2) (int32_of operand1)) 0xFFFF in
  let addressH := Z.land (Z.lor (shl8 operand2) (js_and_opt (js_add operand1 1) 0xFF)) 0xFFFF in
  Z.land (Z.lor (Z.shiftl (m addressH) 8) (m addressL)) 0xFFFF.

Definition getXIndexedIndirect (r : Regs) (m : Mem) (operand : jsarg) : Z :=
  let address := js_and_opt (js_add operand (x r)) 0xFF in
  Z.land (Z.lor (m address) (Z.shiftl (m (Z.land (address + 1) 0xFF)) 8)) 0xFFFF.

Definition getIndirectYIndexed (r : Regs) (m : Mem) (operand : jsarg) : Z :=
  let address := Z.land (int32_of operand) 0xFF in
  Z.land (Z.lor (m address) (Z.shiftl (m (Z.land (address + 1) 0xFF)) 8) + y r) 0xFFFF.

(** [(operand & 0x80) ? (operand - 256) : operand] *)
Definition getRelative (operand : jsarg) : Operand :=
  if truthy (Z.land (int32_of operand) 0x80) then
    match js_number operand with Some n => ONum (n - 256) | None => ONaN end
  else
    match operand with JN z => ONum z | JU => OUndef | JA l => OArr l end.

Definition getZeropage (operand : jsarg) : Z := Z.land (int32_of operand) 0xFF.

Definition getZeropageXIndexed (r : Regs) (operand : jsarg) : Z :=
  js_and_opt (js_add operand (x r)) 0xFF.

Definition getZeropageYIndexed (r : Regs) (operand : jsarg) : Z :=
  js_and_opt (js_add operand (y r)) 0xFF.

(** The string tags of the opcode table. *)
Inductive AddrMode := M_A | M_abs | M_absX | M_absY | M_imm | M_impl | M_ind
                    | M_Xind | M_indY | M_rel | M_zpg | M_zpgX | M_zpgY.

(** [address_mode_handlers[addressing_mode](args)] as called by
    [executeInstruction]: the whole [args] array is the first argument. *)
Definition address_mode_handlers (mode : AddrMode) (args : list (option Z))
    (r : Regs) (m : Mem) : Operand :=
  let v := JA args in
  match mode with
  | M_A => getAccumulator
  | M_abs => ONum (getAbsolute v JU)
  | M_absX => ONum (getAbsoluteX r v JU)
  | M_absY => ONum (getAbsoluteY r v JU)
  | M_imm => ONum (getImmediate r)
  | M_impl => getImplied
  | M_ind => ONum (getIndirect m v JU)
  | M_Xind => ONum (getXIndexedIndirect r m v)
  | M_indY => ONum (getIndirectYIndexed r m v)
  | M_rel => getRelative v
  | M_zpg => ONum (getZeropage v)
  | M_zpgX => ONum (getZeropageXIndexed r v)
  | M_zpgY => ONum (getZeropageYIndexed r v)
  end.

(** ** Instruction handlers ([execute.js], lines 182-1090)

    A handler maps the registers and memory to new registers and memory.
    Handlers with a [memory_location] parameter take the address; the four
    shift/rotate handlers take [None] for the string ["accumulator"]. *)

Definition St := (Regs * Mem)%type.

(** Stack push: [mainMemory[0x0100 + sp] = v; sp = (sp - 1) & 0xFF]. *)
Definition push (v : Z) (s : St) : St :=
  let (r, m) := s in
  (with_sp r (Z.land (sp r - 1) 0xFF), mem_set m (0x0100 + sp r) v).

Definition carry_in (r : Regs) : Z := if truthy (Z.land (status r) 0x01) then 1 else 0.

Definition ADC (memory_location : Z) (r : Regs) (m : Mem) : St :=
  let value := m memory_location in
  let carry := carry_in r in
  let result := a r + value + carry in
  let s1 := flag_if (result >? 0xFF) 0x01 (status r) in
  let result := Z.land result 0xFF in
  let s2 := flag_if ((Z.land (Z.lxor (a r) value) 0x80 =? 0)
                     && negb (Z.land (Z.lxor (a r) result) 0x80 =? 0)) 0x40 s1 in
  (with_status (with_a r result) (set_zn result s2), m).

Definition SBC (memory_location : Z) (r : Regs) (m : Mem) : St :=
  let value := m memory_location in
  let carry := carry_in r in
  let result := a r - value - (1 - carry) in
  let s1 := flag_if (negb (result <? 0)) 0x01 (status r) in
  let result := Z.land result 0xFF in
  let s2 := flag_if (negb (Z.land (Z.lxor (a r) value) 0x80 =? 0)
                     && negb (Z.land (Z.lxor (a r) result) 0x80 =? 0)) 0x40 s1 in
  (with_status (with_a r result) (set_zn result s2), m).

(** [AND], [EOR], [ORA]: [cpuRegisters.a op= value]. *)
Definition logical (op : Z -> Z -> Z) (memory_location : Z) (r : Regs) (m : Mem) : St :=
  let res := op (a r) (m memory_location) in
  (with_status (with_a r res) (set_zn res (status r)), m).

Definition AND := logical Z.land.
Definition EOR := logical Z.lxor.
Definition ORA := logical Z.lor.

Definition BIT (memory_location : Z) (r : Regs) (m : Mem) : St :=
  let value := m memory_location in
  let result := Z.land (a r) value in
  let s1 := flag_if (result =? 0) 0x02 (status r) in
  let s2 := flag_if (truthy (Z.land value 0x08)) 0x80 s1 in
  let s3 := flag_if (truthy (Z.land value 0x40)) 0x40 s2 in
  (with_status r s3, m).

(** [CMP], [CPX], [CPY] differ only in the register compared. *)
Definition compare (reg : Z) (memory_location : Z) (r : Regs) (m : Mem) : St :=
  let value := m memory_location in
  let result := Z.land (reg - value) 0xFF in
  let s1 := flag_if (result >=? 0) 0x01 (status r) in
  (with_status r (set_zn result s1), m).

Definition CMP (memory_location : Z) (r : Regs) (m : Mem) : St := compare (a r) memory_location r m.
Definition CPX (memory_location : Z) (r : Regs) (m : Mem) : St := compare (x r) memory_location r m.
Definition CPY (memory_location : Z) (r : Regs) (m : Mem) : St := compare (y r) memory_location r m.

Definition DEC (memory_location : Z) (r : Regs) (m : Mem) : St :=
  let result := Z.land (m memory_location - 1) 0xFF in
  (with_status r (set_zn result (status r)), mem_set m memory_location result).

Definition INC (memory_location : Z) (r : Regs) (m : Mem) : St :=
  let result := Z.land (m memory_location + 1) 0xFF in
  (with_status r (set_zn result (status r)), mem_set m memory_location result).

Definition DEX (r : Regs) (m : Mem) : St :=
  let result := Z.land (x r - 1) 0xFF in
  (with_status (with_x r result) (set_zn result (status r)), m).

Definition DEY (r : Regs) (m : Mem) : St :=
  let result := Z.land (y r - 1) 0xFF in
  (with_status (with_y r result) (set_zn result (status r)), m).

(** [INX] and [INY] as written: [(cpuRegisters.x - 1) & 0xFF]. *)
Definition INX (r : Regs) (m : Mem) : St :=
  let result := Z.land (x r - 1) 0xFF in
  (with_status (with_x r result) (set_zn result (status r)), m).

Definition INY (r : Regs) (m : Mem) : St :=
  let result := Z.land (y r - 1) 0xFF in
  (with_status (with_y r result) (set_zn result (status r)), m).

Definition LDA (memory_location : Z) (r : Regs) (m : Mem) : St :=
  let v := m memory_location in (with_status (with_a r v) (set_zn v (status r)), m).
Definition LDX (memory_location : Z) (r : Regs) (m : Mem) : St :=
  let v := m memory_location in (with_status (with_x r v) (set_zn v (status r)), m).
Definition LDY (memory_location : Z) (r : Regs) (m : Mem) : St :=
  let v := m memory_location in (with_status (with_y r v) (set_zn v (status r)), m).

Definition STA (memory_location : Z) (r : Regs) (m : Mem) : St := (r, mem_set m memory_location (a r)).
Definition STX (memory_location : Z) (r : Regs) (m : Mem) : St := (r, mem_set m memory_location (x r)).
Definition STY (memory_location : Z) (r : Regs) (m : Mem) : St := (r, mem_set m memory_location (y r)).

(** Shifts and rotates: [carry_of v] is the bit moved into Carry, [shift v c]
    the stored byte given the previous carry [c]. *)
Definition shift_op (carry_of : Z -> bool) (shift : Z -> Z -> Z)
    (memory_location : option Z) (r : Regs) (m : Mem) : St :=
  let carry := Z.land (status r) 0x01 in
  match memory_location with
  | None =>
      let s1 := flag_if (carry_of (a r)) 0x01 (status r) in
      let v := shift (a r) carry in
      (with_status (with_a r v) (set_zn v s1), m)
  | Some loc =>
      let value := m loc in
      let s1 := flag_if (carry_of value) 0x01 (status r) in
      let m' := mem_set m loc (shift value carry) in
      (with_status r (set_zn (m' loc) s1), m')
  end.

Definition ASL := shift_op (fun v => truthy (Z.land v 0x80)) (fun v _ => Z.land (Z.shiftl v 1) 0xFF).
Definition LSR := shift_op (fun v => truthy (Z.land v 0x01)) (fun v _ => Z.land (Z.shiftr v 1) 0xFF).
Definition ROL := shift_op (fun v => truthy (Z.land v 0x80))
                           (fun v c => Z.lor (Z.land (Z.shiftl v 1) 0xFF) c).
Definition ROR := shift_op (fun v => truthy (Z.land v 0x01))
                           (fun v c => Z.lor (Z.land (Z.shiftr v 1) 0xFF) (Z.shiftl c 7)).

(** [cpuRegisters.pc + displacement], with JavaScript's [+]: a number is
    added, the [args] array, [NaN], [undefined] or a string are not. *)
Definition js_add_pc (pcv : Z) (displacement : Operand) : option Z :=
  match displacement with
  | ONum n => Some (pcv + n)
  | ONaN | OUndef => None
  | OArr l => js_to_number (dec pcv ++ array_to_string l)
  | ONull => Some pcv
  | OAcc => js_to_number (dec pcv ++ "accumulator")
  end.

(** [if (cond) { new_pc = pc + displacement; pc = new_pc & 0xFFFF; }] *)
Definition branch (cond : bool) (displacement : Operand) (r : Regs) (m : Mem) : St :=
  if cond then (with_pc r (js_and_opt (js_add_pc (pc r) displacement) 0xFFFF), m) else (r, m).

Definition BCC (displacement : Operand) (r : Regs) := branch (negb (truthy (Z.land (status r) 0x01))) displacement r.
Definition BCS (displacement : Operand) (r : Regs) := branch (truthy (Z.land (status r) 0x01)) displacement r.
Definition BEQ (displacement : Operand) (r : Regs) := branch (truthy (Z.land (status r) 0x02)) displacement r.
Definition BNE (displacement : Operand) (r : Regs) := branch (negb (truthy (Z.land (status r) 0x02))) displacement r.
Definition BMI (displacement : Operand) (r : Regs) := branch (truthy (Z.land (status r) 0x80)) displacement r.
Definition BPL (displacement : Operand) (r : Regs) := branch (negb (truthy (Z.land (status r) 0x80))) displacement r.
(** [BVC] and [BVS] as written: they test [status & 0x04]. *)
Definition BVC (displacement : Operand) (r : Regs) := branch (negb (truthy (Z.land (status r) 0x04))) displacement r.
Definition BVS (displacement : Operand) (r : Regs) := branch (truthy (Z.land (status r) 0x04)) displacement r.

Definition BRK (r : Regs) (m : Mem) : St :=
  let returnAddress := Z.land (pc r + 1) 0xFFFF in
  let '(r1, m1) := push (Z.land (Z.shiftr returnAddress 8) 0xFF) (r, m) in
  let '(r2, m2) := push (Z.land returnAddress 0xFF) (r1, m1) in
  let r3 := with_status r2 (Z.lor (status r2) 0x10) in
  let '(r4, m4) := push (status r3) (r3, m2) in
  let interrupt_handler_address := Z.lor (Z.shiftl (m4 0xFFFF) 8) (m4 0xFFFE) in
  (with_pc r4 (Z.land interrupt_handler_address 0xFFFF), m4).

Definition JMP (memory_location : Z) (r : Regs) (m : Mem) : St :=
  (with_pc r (Z.land memory_location 0xFFFF), m).

Definition JSR (memory_location : Z) (r : Regs) (m : Mem) : St :=
  let returnAddress := Z.land (pc r - 1) 0xFFFF in
  let '(r1, m1) := push (Z.land (Z.shiftr returnAddress 8) 0xFF) (r, m) in
  let '(r2, m2) := push (Z.land returnAddress 0xFF) (r1, m1) in
  (with_pc r2 (Z.land memory_location 0xFFFF), m2).

Definition NOP (r : Regs) (m : Mem) : St := (r, m).

Definition PHA (r : Regs) (m : Mem) : St := push (a r) (r, m).

(** [cpuRegisters.status |= 0x30], then the register is pushed. *)
Definition PHP (r : Regs) (m : Mem) : St :=
  let r1 := with_status r (Z.lor (status r) 0x30) in
  push (status r1) (r1, m).

Definition PLA (r : Regs) (m : Mem) : St :=
  let r1 := with_sp r (Z.land (sp r + 1) 0xFF) in
  let v := m (0x0100 + sp r1) in
  (with_status (with_a r1 v) (set_zn v (status r1)), m).

Definition PLP (r : Regs) (m : Mem) : St :=
  let r1 := with_sp r (Z.land (sp r + 1) 0xFF) in
  (with_status r1 (Z.land (m (0x0100 + sp r1)) (Z.lnot 0x30)), m).

Definition RTI (r : Regs) (m : Mem) : St :=
  let r1 := with_sp r (Z.land (sp r + 1) 0xFF) in
  let r2 := with_status r1 (Z.land (m (0x0100 + sp r1)) (Z.lnot 0x30)) in
  let r3 := with_sp r2 (Z.land (sp r2 + 1) 0xFF) in
  let PC_low := m (0x0100 + sp r3) in
  let r4 := with_sp r3 (Z.land (sp r3 + 1) 0xFF) in
  let PC_high := m (0x0100 + sp r4) in
  (with_pc r4 (Z.land (Z.lor (Z.shiftl PC_high 8) PC_low) 0xFFFF), m).

Definition RTS (r : Regs) (m : Mem) : St :=
  let r1 := with_sp r (Z.land (sp r + 1) 0xFF) in
  let PC_low := m (0x0100 + sp r1) in
  let r2 := with_sp r1 (Z.land (sp r1 + 1) 0xFF) in
  let PC_high := m (0x0100 + sp r2) in
  let r3 := with_pc r2 (Z.land (Z.lor (Z.shiftl PC_high 8) PC_low) 0xFFFF) in
  (with_pc r3 (Z.land (pc r3 + 1) 0xFFFF), m).

Definition set_flag (mask : Z) (r : Regs) (m : Mem) : St := (with_status r (Z.lor (status r) mask), m).
Definition clear_flag (mask : Z) (r : Regs) (m : Mem) : St := (with_status r (Z.land (status r) (Z.lnot mask)), m).

Definition SEC := set_flag 0x01.
Definition SED := set_flag 0x08.
Definition SEI := set_flag 0x04.
Definition CLC := clear_flag 0x01.
Definition CLD := clear_flag 0x08.
Definition CLI := clear_flag 0x04.
Definition CLV := clear_flag 0x40.

Definition TAX (r : Regs) (m : Mem) : St := (with_status (with_x r (a r)) (set_zn (a r) (status r)), m).
Definition TAY (r : Regs) (m : Mem) : St := (with_status (with_y r (a r)) (set_zn (a r) (status r)), m).
Definition TSX (r : Regs) (m : Mem) : St := (with_status (with_x r (sp r)) (set_zn (sp r) (status r)), m).
Definition TXA (r : Regs) (m : Mem) : St := (with_status (with_a r (x r)) (set_zn (x r) (status r)), m).
Definition TYA (r : Regs) (m : Mem) : St := (with_status (with_a r (y r)) (set_zn (y r) (status r)), m).
Definition TXS (r : Regs) (m : Mem) : St := (with_sp r (x r), m).

(** ** The opcode table ([decode.js], [src/unnamed/part_000] lines 555-742) *)

Inductive Mnemonic :=
| mADC
| mAND
| mASL
| mBCC
| mBCS
| mBEQ
| mBIT
| mBMI
| mBNE
| mBPL
| mBRK
| mBVC
| mBVS
| mCLC
| mCLD
| mCLI
| mCLV
| mCMP
| mCPX
| mCPY
| mDEC
| mDEX
| mDEY
| mEOR
| mINC
| mINX
| mINY
| mJMP
| mJSR
| mLDA
| mLDX
| mLDY
| mLSR
| mNOP
| mORA
| mPHA
| mPHP
| mPLA
| mPLP
| mROL
| mROR
| mRTI
| mRTS
| mSBC
| mSEC
| mSED
| mSEI
| mSTA
| mSTX
| mSTY
| mTAX
| mTAY
| mTSX
| mTXA
| mTXS
| mTYA.

Record OpCode := mkOpCode { instruction_name : Mnemonic; addressing_mode : AddrMode; size : Z }.

(** [opcode_matrix[opcode]]; [None] for a byte with no entry. *)
Definition opcode_matrix (opcode : Z) : option OpCode :=
  match opcode with
  | 0x00 => Some (mkOpCode mBRK M_impl 1)
  | 0x01 => Some (mkOpCode mORA M_Xind 2)
  | 0x05 => Some (mkOpCode mORA M_zpg 2)
  | 0x06 => Some (mkOpCode mASL M_zpg 2)
  | 0x08 => Some (mkOpCode mPHP M_impl 1)
  | 0x09 => Some (mkOpCode mORA M_imm 2)
  | 0x0A => Some (mkOpCode mASL M_A 1)
  | 0x0D => Some (mkOpCode mORA M_abs 3)
  | 0x0E => Some (mkOpCode mASL M_abs 3)
  | 0x10 => Some (mkOpCode mBPL M_rel 2)
  | 0x11 => Some (mkOpCode mORA M_indY 2)
  | 0x15 => Some (mkOpCode mORA M_zpgX 2)
  | 0x16 => Some (mkOpCode mASL M_zpgX 2)
  | 0x18 => Some (mkOpCode mCLC M_impl 1)
  | 0x19 => Some (mkOpCode mORA M_absY 3)
  | 0x1D => Some (mkOpCode mORA M_absX 3)
  | 0x1E => Some (mkOpCode mASL M_absX 3)
  | 0x20 => Some (mkOpCode mJSR M_abs 3)
  | 0x21 => Some (mkOpCode mAND M_Xind 2)
  | 0x24 => Some (mkOpCode mBIT M_zpg 2)
  | 0x25 => Some (mkOpCode mAND M_zpg 2)
  | 0x26 => Some (mkOpCode mROL M_zpg 2)
  | 0x28 => Some (mkOpCode mPLP M_impl 1)
  | 0x29 => Some (mkOpCode mAND M_imm 2)
  | 0x2A => Some (mkOpCode mROL M_A 1)
  | 0x2C => Some (mkOpCode mBIT M_abs 3)
  | 0x2D => Some (mkOpCode mAND M_abs 3)
  | 0x2E => Some (mkOpCode mROL M_abs 3)
  | 0x30 => Some (mkOpCode mBMI M_rel 2)
  | 0x31 => Some (mkOpCode mAND M_indY 2)
  | 0x35 => Some (mkOpCode mAND M_zpgX 2)
  | 0x36 => Some (mkOpCode mROL M_zpgX 2)
  | 0x38 => Some (mkOpCode mSEC M_impl 1)
  | 0x39 => Some (mkOpCode mAND M_absY 3)
  | 0x3D => Some (mkOpCode mAND M_absX 3)
  | 0x3E => Some (mkOpCode mROL M_absX 3)
  | 0x40 => Some (mkOpCode mRTI M_impl 1)
  | 0x41 => Some (mkOpCode mEOR M_Xind 2)
  | 0x45 => Some (mkOpCode mEOR M_zpg 2)
  | 0x46 => Some (mkOpCode mLSR M_zpg 2)
  | 0x48 => Some (mkOpCode mPHA M_impl 1)
  | 0x49 => Some (mkOpCode mEOR M_imm 2)
  | 0x4A => Some (mkOpCode mLSR M_A 1)
  | 0x4C => Some (mkOpCode mJMP M_abs 3)
  | 0x4D => Some (mkOpCode mEOR M_abs 3)
  | 0x4E => Some (mkOpCode mLSR M_abs 3)
  | 0x50 => Some (mkOpCode mBVC M_rel 2)
  | 0x51 => Some (mkOpCode mEOR M_indY 2)
  | 0x55 => Some (mkOpCode mEOR M_zpgX 2)
  | 0x56 => Some (mkOpCode mLSR M_zpgX 2)
  | 0x58 => Some (mkOpCode mCLI M_impl 1)
  | 0x59 => Some (mkOpCode mEOR M_absY 3)
  | 0x5D => Some (mkOpCode mEOR M_absX 3)
  | 0x5E => Some (mkOpCode mLSR M_absX 3)
  | 0x60 => Some (mkOpCode mRTS M_impl 1)
  | 0x61 => Some (mkOpCode mADC M_Xind 2)
  | 0x65 => Some (mkOpCode mADC M_zpg 2)
  | 0x66 => Some (mkOpCode mROR M_zpg 2)
  | 0x68 => Some (mkOpCode mPLA M_impl 1)
  | 0x69 => Some (mkOpCode mADC M_imm 2)
  | 0x6A => Some (mkOpCode mROR M_A 1)
  | 0x6C => Some (mkOpCode mJMP M_ind 3)
  | 0x6D => Some (mkOpCode mADC M_abs 3)
  | 0x6E => Some (mkOpCode mROR M_abs 3)
  | 0x70 => Some (mkOpCode mBVS M_rel 2)
  | 0x71 => Some (mkOpCode mADC M_indY 2)
  | 0x75 => Some (mkOpCode mADC M_zpgX 2)
  | 0x76 => Some (mkOpCode mROR M_zpgX 2)
  | 0x78 => Some (mkOpCode mSEI M_impl 1)
  | 0x79 => Some (mkOpCode mADC M_absY 3)
  | 0x7D => Some (mkOpCode mADC M_absX 3)
  | 0x7E => Some (mkOpCode mROR M_absX 3)
  | 0x81 => Some (mkOpCode mSTA M_Xind 2)
  | 0x84 => Some (mkOpCode mSTY M_zpg 2)
  | 0x85 => Some (mkOpCode mSTA M_zpg 2)
  | 0x86 => Some (mkOpCode mSTX M_zpg 2)
  | 0x88 => Some (mkOpCode mDEY M_impl 1)
  | 0x8A => Some (mkOpCode mTXA M_impl 1)
  | 0x8C => Some (mkOpCode mSTY M_abs 3)
  | 0x8D => Some (mkOpCode mSTA M_abs 3)
  | 0x8E => Some (mkOpCode mSTX M_abs 3)
  | 0x90 => Some (mkOpCode mBCC M_rel 2)
  | 0x91 => Some (mkOpCode mSTA M_indY 2)
  | 0x94 => Some (mkOpCode mSTY M_zpgX 2)
  | 0x95 => Some (mkOpCode mSTA M_zpgX 2)
  | 0x96 => Some (mkOpCode mSTX M_zpgY 2)
  | 0x98 => Some (mkOpCode mTYA M_impl 1)
  | 0x99 => Some (mkOpCode mSTA M_absY 3)
  | 0x9A => Some (mkOpCode mTXS M_impl 1)
  | 0x9D => Some (mkOpCode mSTA M_absX 3)
  | 0xA0 => Some (mkOpCode mLDY M_imm 2)
  | 0xA1 => Some (mkOpCode mLDA M_Xind 2)
  | 0xA2 => Some (mkOpCode mLDX M_imm 2)
  | 0xA4 => Some (mkOpCode mLDY M_zpg 2)
  | 0xA5 => Some (mkOpCode mLDA M_zpg 2)
  | 0xA6 => Some (mkOpCode mLDX M_zpg 2)
  | 0xA8 => Some (mkOpCode mTAY M_impl 1)
  | 0xA9 => Some (mkOpCode mLDA M_imm 2)
  | 0xAA => Some (mkOpCode mTAX M_impl 1)
  | 0xAC => Some (mkOpCode mLDY M_abs 3)
  | 0xAD => Some (mkOpCode mLDA M_abs 3)
  | 0xAE => Some (mkOpCode mLDX M_abs 3)
  | 0xB0 => Some (mkOpCode mBCS M_rel 2)
  | 0xB1 => Some (mkOpCode mLDA M_indY 2)
  | 0xB4 => Some (mkOpCode mLDY M_zpgX 2)
  | 0xB5 => Some (mkOpCode mLDA M_zpgX 2)
  | 0xB6 => Some (mkOpCode mLDX M_zpgY 2)
  | 0xB8 => Some (mkOpCode mCLV M_impl 1)
  | 0xB9 => Some (mkOpCode mLDA M_absY 3)
  | 0xBA => Some (mkOpCode mTSX M_impl 1)
  | 0xBC => Some (mkOpCode mLDY M_absX 3)
  | 0xBD => Some (mkOpCode mLDA M_absX 3)
  | 0xBE => Some (mkOpCode mLDX M_absY 3)
  | 0xC0 => Some (mkOpCode mCPY M_imm 2)
  | 0xC1 => Some (mkOpCode mCMP M_Xind 2)
  | 0xC4 => Some (mkOpCode mCPY M_zpg 2)
  | 0xC5 => Some (mkOpCode mCMP M_zpg 2)
  | 0xC6 => Some (mkOpCode mDEC M_zpg 2)
  | 0xC8 => Some (mkOpCode mINY M_impl 1)
  | 0xC9 => Some (mkOpCode mCMP M_imm 2)
  | 0xCA => Some (mkOpCode mDEX M_impl 1)
  | 0xCC => Some (mkOpCode mCPY M_abs 3)
  | 0xCD => Some (mkOpCode mCMP M_abs 3)
  | 0xCE => Some (mkOpCode mDEC M_abs 3)
  | 0xD0 => Some (mkOpCode mBNE M_rel 2)
  | 0xD1 => Some (mkOpCode mCMP M_indY 2)
  | 0xD5 => Some (mkOpCode mCMP M_zpgX 2)
  | 0xD6 => Some (mkOpCode mDEC M_zpgX 2)
  | 0xD8 => Some (mkOpCode mCLD M_impl 1)
  | 0xD9 => Some (mkOpCode mCMP M_absY 3)
  | 0xDD => Some (mkOpCode mCMP M_absX 3)
  | 0xDE => Some (mkOpCode mDEC M_absX 3)
  | 0xE0 => Some (mkOpCode mCPX M_imm 2)
  | 0xE1 => Some (mkOpCode mSBC M_Xind 2)
  | 0xE4 => Some (mkOpCode mCPX M_zpg 2)
  | 0xE5 => Some (mkOpCode mSBC M_zpg 2)
  | 0xE6 => Some (mkOpCode mINC M_zpg 2)
  | 0xE8 => Some (mkOpCode mINX M_impl 1)
  | 0xE9 => Some (mkOpCode mSBC M_imm 2)
  | 0xEA => Some (mkOpCode mNOP M_impl 1)
  | 0xEC => Some (mkOpCode mCPX M_abs 3)
  | 0xED => Some (mkOpCode mSBC M_abs 3)
  | 0xEE => Some (mkOpCode mINC M_abs 3)
  | 0xF0 => Some (mkOpCode mBEQ M_rel 2)
  | 0xF1 => Some (mkOpCode mSBC M_indY 2)
  | 0xF5 => Some (mkOpCode mSBC M_zpgX 2)
  | 0xF6 => Some (mkOpCode mINC M_zpgX 2)
  | 0xF8 => Some (mkOpCode mSED M_impl 1)
  | 0xF9 => Some (mkOpCode mSBC M_absY 3)
  | 0xFD => Some (mkOpCode mSBC M_absX 3)
  | 0xFE => Some (mkOpCode mINC M_absX 3)
  | _ => None
  end.

(** ** The loop ([main.js], [src/unnamed/part_000] lines 167-236) *)

(** A handler with a [memory_location] parameter applied to the resolved
    operand.  Every table entry of such a mnemonic has an addressing mode
    whose resolver returns a number ([opcode_matrix_operand_kinds] below),
    so the last branch is never taken from the loop. *)
Definition with_location (h : Z -> Regs -> Mem -> St) (op : Operand) (r : Regs) (m : Mem) : St :=
  match op with ONum z => h z r m | _ => (r, m) end.

(** The shift/rotate handlers compare their argument with ["accumulator"]. *)
Definition with_target (h : option Z -> Regs -> Mem -> St) (op : Operand) (r : Regs) (m : Mem) : St :=
  match op with OAcc => h None r m | ONum z => h (Some z) r m | _ => (r, m) end.

Definition handler (name : Mnemonic) : Operand -> Regs -> Mem -> St :=
  match name with
  | mADC => with_location ADC | mAND => with_location AND | mASL => with_target ASL
  | mBCC => BCC | mBCS => BCS | mBEQ => BEQ | mBIT => with_location BIT
  | mBMI => BMI | mBNE => BNE | mBPL => BPL | mBRK => fun _ => BRK
  | mBVC => BVC | mBVS => BVS | mCLC => fun _ => CLC | mCLD => fun _ => CLD
  | mCLI => fun _ => CLI | mCLV => fun _ => CLV | mCMP => with_location CMP
  | mCPX => with_location CPX | mCPY => with_location CPY | mDEC => with_location DEC
  | mDEX => fun _ => DEX | mDEY => fun _ => DEY | mEOR => with_location EOR
  | mINC => with_location INC | mINX => fun _ => INX | mINY => fun _ => INY
  | mJMP => with_location JMP | mJSR => with_location JSR | mLDA => with_location LDA
  | mLDX => with_location LDX | mLDY => with_location LDY | mLSR => with_target LSR
  | mNOP => fun _ => NOP | mORA => with_location ORA | mPHA => fun _ => PHA
  | mPHP => fun _ => PHP | mPLA => fun _ => PLA | mPLP => fun _ => PLP
  | mROL => with_target ROL | mROR => with_target ROR | mRTI => fun _ => RTI
  | mRTS => fun _ => RTS | mSBC => with_location SBC | mSEC => fun _ => SEC
  | mSED => fun _ => SED | mSEI => fun _ => SEI | mSTA => with_location STA
  | mSTX => with_location STX | mSTY => with_location STY | mTAX => fun _ => TAX
  | mTAY => fun _ => TAY | mTSX => fun _ => TSX | mTXA => fun _ => TXA
  | mTXS => fun _ => TXS | mTYA => fun _ => TYA
  end.

(** [executeInstruction(instruction_name, addressing_mode, ...args)]: every
    mnemonic of the table is an exported function of [execute.js]. *)
Definition executeInstruction (name : Mnemonic) (mode : AddrMode) (args : list (option Z))
    (r : Regs) (m : Mem) : St :=
  handler name (address_mode_handlers mode args r m) r m.

(** The module state of [main.js]: registers, memory, and the two cycle
    counters. *)
Record Machine := mkMachine {
  regs : Regs;
  mem : Mem;
  currentInstructionCycles : Z;
  totalCycles : Z }.

(** What a call reports: the instruction run, or the [console.error] of an
    unknown opcode with the offending byte. *)
Inductive Event :=
| EvNone
| EvUnknownOpcode (opcode : Z)
| EvExecuted (instruction : OpCode).

(** Modelled from the spec: the base cycle count of an opcode-table entry
    ("base cycles: small positive integer", spec section 3).  The revision
    of the opcode table in the sources has no cycle field while
    [decodeInstruction] reads [instruction.cycles]; the loop therefore takes
    the column [cycles] (indexed by opcode byte) as a parameter, and this
    predicate states what the spec says of it. *)
Definition cycle_table_ok (cycles : Z -> Z) : Prop :=
  forall opcode, opcode_matrix opcode <> None -> 1 <= cycles opcode.

Section Loop.

Variable cycles : Z -> Z.

(** [decodeInstruction()]: the result carries the new state, the event,
    and whether a [TypeError] was thrown ([undefined.toString(16)] on an
    opcode or operand read outside [mainMemory]). *)
Definition decodeInstruction (s : Machine) : Machine * Event * bool :=
  let r := regs s in
  let m := mem s in
  match mem_get m (pc r) with
  | None => (s, EvNone, true)
  | Some opcode =>
      match opcode_matrix opcode with
      | None => (s, EvUnknownOpcode opcode, false)
      | Some ins =>
          let name := instruction_name ins in
          let mode := addressing_mode ins in
          let fin (args : list (option Z)) (thrown : bool) :=
            let r1 := with_pc r (pc r + size ins) in
            let '(r2, m2) := executeInstruction name mode args r1 m in
            (mkMachine r2 m2 (cycles opcode) (totalCycles s), EvExecuted ins, thrown) in
          if size ins =? 1 then fin [] false
          else if size ins =? 2 then
            let operand := mem_get m (pc r + 1) in
            fin [operand] (match operand with None => true | Some _ => false end)
          else
            let operand1 := mem_get m (pc r + 1) in
            let operand2 := mem_get m (pc r + 2) in
            fin [operand1; operand2]
                (match operand1, operand2 with Some _, Some _ => false | _, _ => true end)
      end
  end.

(** [updateprogramDisplay()] reads [mainMemory[i].toString(16)] for
    [i] from [pc - 4] to [pc + 4]; it throws when one of them is out of
    range. *)
Definition display_throws (pcv : Z) : bool := negb (in_mem (pcv - 4) && in_mem (pcv + 4)).

Definition tick (s : Machine) : Machine :=
  mkMachine (regs s) (mem s) (currentInstructionCycles s - 1) (totalCycles s + 1).

(** [cpuCycle()]; an exception skips the rest of the function. *)
Definition cpuCycle (s : Machine) : Machine * Event * bool :=
  if currentInstructionCycles s =? 0 then
    let '(s1, ev, thrown) := decodeInstruction s in
    if thrown then (s1, ev, true)
    else if display_throws (pc (regs s1)) then (s1, ev, true)
    else (tick s1, ev, false)
  else (tick s, EvNone, false).

Definition next (s : Machine) : Machine := fst (fst (cpuCycle s)).

(** [n] successive calls of [cpuCycle]. *)
Fixpoint run (n : nat) (s : Machine) : Machine :=
  match n with O => s | S n' => run n' (next s) end.

End Loop.

(** The state [loadRom] leaves behind with memory [m]: the registers of the
    module initialiser, PC from the reset vector at [0xFFFC]/[0xFFFD],
    [sp = 0xFF], both counters 0. *)
Definition loadRom_state (m : Mem) : Machine :=
  mkMachine (mkRegs 0 0 0 (Z.lor (m 0xFFFC) (Z.shiftl (m 0xFFFD) 8)) 0xFF 0) m 0 0.

(** [n] calls of [cpuCycle] take the dispatching call [s] back to an idle
    counter, and not fewer. *)
Definition consumes (cycles : Z -> Z) (s : Machine) (n : nat) : Prop :=
  (0 < n)%nat /\ currentInstructionCycles (run cycles n s) = 0 /\
  forall k, (0 < k < n)%nat -> currentInstructionCycles (run cycles k s) <> 0.

(** Handlers that take an address must be paired with a resolver that
    returns a number, the shift/rotate handlers with such a resolver or
    with the accumulator mode. *)
Definition number_mode (md : AddrMode) : bool :=
  match md with M_A | M_impl | M_rel => false | _ => true end.

Definition operand_kind_ok (ins : OpCode) : bool :=
  match instruction_name ins with
  | mADC | mAND | mBIT | mCMP | mCPX | mCPY | mDEC | mEOR | mINC | mJMP | mJSR
  | mLDA | mLDX | mLDY | mORA | mSBC | mSTA | mSTX | mSTY => number_mode (addressing_mode ins)
  | mASL | mLSR | mROL | mROR =>
      match addressing_mode ins with M_A => true | md => number_mode md end
  | _ => true
  end.

(** ** The loop with the opcode table of the sources *)

(** A JavaScript value held by [currentInstructionCycles]: a number,
    [undefined] (what [instruction.cycles] reads, the [OpCode] class having
    no [cycles] field) or [NaN] (what [undefined--] leaves). *)
Inductive jsnum :=
| NNum (z : Z)
| NUndef
| NNaN.

(** [c--] *)
Definition js_dec (c : jsnum) : jsnum :=
  match c with NNum z => NNum (z - 1) | NUndef | NNaN => NNaN end.

(** [c === 0] *)
Definition js_eq_zero (c : jsnum) : bool :=
  match c with NNum z => z =? 0 | NUndef | NNaN => false end.

(** [c > 0] *)
Definition js_gt_zero (c : jsnum) : bool :=
  match c with NNum z => 0 <? z | NUndef | NNaN => false end.

Record MachineJS := mkMachineJS {
  js_regs : Regs;
  js_mem : Mem;
  js_cycles : jsnum;
  js_total : Z }.

(** [decodeInstruction()] with [currentInstructionCycles = instruction.cycles]
    reading [undefined]; the registers, memory, event and exception are
    those of [decodeInstruction] above, which does not read the counter. *)
Definition decodeInstruction_src (s : MachineJS) : MachineJS * Event * bool :=
  let '(s1, ev, thrown) :=
    decodeInstruction (fun _ => 0) (mkMachine (js_regs s) (js_mem s) 0 (js_total s)) in
  let c := match ev with EvExecuted _ => NUndef | _ => js_cycles s end in
  (mkMachineJS (regs s1) (mem s1) c (js_total s), ev, thrown).

(** [currentInstructionCycles--; totalCycles++;] *)
Definition tick_src (s : MachineJS) : MachineJS :=
  mkMachineJS (js_regs s) (js_mem s) (js_dec (js_cycles s)) (js_total s + 1).

(** [cpuCycle()]; an exception skips the rest of the function. *)
Definition cpuCycle_src (s : MachineJS) : MachineJS * Event * bool :=
  if js_eq_zero (js_cycles s) then
    let '(s1, ev, thrown) := decodeInstruction_src s in
    if thrown then (s1, ev, true)
    else if display_throws (pc (js_regs s1)) then (s1, ev, true)
    else (tick_src s1, ev, false)
  else (tick_src s, EvNone, false).

Definition next_src (s : MachineJS) : MachineJS := fst (fst (cpuCycle_src s)).

(** The events of [n] successive calls of [cpuCycle] (the run button's
    interval, or [n] clicks of the cycle button); an exception thrown in a
    call does not stop the next one. *)
Fixpoint events_src (n : nat) (s : MachineJS) : list Event :=
  match n with
  | O => []
  | S n' => snd (fst (cpuCycle_src s)) :: events_src n' (next_src s)
  end.

Fixpoint run_src (n : nat) (s : MachineJS) : MachineJS :=
  match n with O => s | S n' => run_src n' (next_src s) end.

Definition is_executed (e : Event) : bool :=
  match e with EvExecuted _ => true | _ => false end.

(** The step button: [do { cpuCycle(); } while (currentInstructionCycles > 0);]
    with a bound [fuel] on the number of extra iterations; an exception
    thrown by [cpuCycle] leaves the click handler. *)
Fixpoint step_button (fuel : nat) (s : MachineJS) : MachineJS :=
  let '(s1, _, thrown) := cpuCycle_src s in
  match fuel with
  | O => s1
  | S f => if thrown then s1 else if js_gt_zero (js_cycles s1) then step_button f s1 else s1
  end.

(** A counter with which [cpuCycle] never decodes again: [NaN],
    [undefined] or a negative number. *)
Definition stalled (c : jsnum) : bool :=
  match c with NNum z => z <? 0 | NUndef | NNaN => true end.

(** ** Reading a ROM file *)

(** A byte array as a list of its elements. *)
Definition list_fn (d : list Z) (i : Z) : Z := nth (Z.to_nat i) d 0.

Definition zlen {A} (d : list A) : Z := Z.of_nat (List.length d).

(** [TypedArray.prototype.slice(start, end)]: negative indices count from
    the end, indices are clamped to [[0, length]]. *)
Definition typed_slice (d : list Z) (start end_ : Z) : list Z :=
  let rel k := if k <? 0 then Z.max 0 (zlen d + k) else Z.min k (zlen d) in
  let from := rel start in
  let to := rel end_ in
  firstn (Z.to_nat (to - from)) (skipn (Z.to_nat from) d).

(** [target.set(source, offset)] on a typed array of length [tlen]:
    [RangeError] ([None]) when [offset < 0] or the source does not fit,
    otherwise the source elements overwrite [target[offset ..]]. *)
Definition typed_set (tlen : Z) (t : Z -> Z) (src : Z -> Z) (slen off : Z) : option (Z -> Z) :=
  if (off <? 0) || (tlen <? slen + off) then None
  else Some (fun i => if (off <=? i) && (i <? off + slen) then src (i - off) else t i).

(** The state the loader touches: the CPU registers, [mainMemory],
    [ppuMemory] (a [Uint8Array(0x4000)]) and [romLoaded]. *)
Record Emu := mkEmu {
  e_regs : Regs;
  e_mem : Mem;
  e_ppu : Mem;
  e_loaded : bool }.

(** [romData[0] === 0x4E && romData[1] === 0x45 && romData[2] === 0x53 &&
    romData[3] === 0x1A] *)
Definition ines_header (d : list Z) : bool :=
  match d with
  | b0 :: b1 :: b2 :: b3 :: _ => (b0 =? 0x4E) && (b1 =? 0x45) && (b2 =? 0x53) && (b3 =? 0x1A)
  | _ => false
  end.

(** [loadCHRRom(romData)]: [chrRom = new Uint8Array(8192)], filled by
    [chrRom.set(romData.slice(romData.length - 8192, romData.length))], then
    copied to [ppuMemory] at 0 ([displayPatternTables] only draws on the
    canvases). [None] is a thrown [RangeError]. *)
Definition loadCHRRom (d : list Z) (ppu : Mem) : option Mem :=
  let chrRomSize := 8192 in
  let chrRomStart := zlen d - chrRomSize in
  let part := typed_slice d chrRomStart (zlen d) in
  match typed_set chrRomSize (fun _ => 0) (list_fn part) (zlen part) 0 with
  | None => None
  | Some chrRom => typed_set 0x4000 ppu chrRom chrRomSize 0
  end.

(** [loadRom(romData)]; the boolean tells whether an exception was thrown:
    the [RangeError] of [mainMemory.set], or the [TypeError] of
    [updateprogramDisplay] for a PC closer than 4 to either end of memory,
    which leaves [romLoaded] unset. *)
Definition loadRom (d : list Z) (e : Emu) : Emu * bool :=
  let loadAddress := 0x10000 - zlen d in
  match typed_set 0x10000 (e_mem e) (list_fn d) (zlen d) loadAddress with
  | None => (e, true)
  | Some m =>
      let r := with_sp (with_pc (e_regs e) (Z.lor (m 0xFFFC) (Z.shiftl (m 0xFFFD) 8))) 0xFF in
      if display_throws (pc r) then (mkEmu r m (e_ppu e) (e_loaded e), true)
      else (mkEmu r m (e_ppu e) true, false)
  end.

(** The [reader.onload] callback of [readRom] on the bytes of the file. *)
Definition readRom_onload (file : list Z) (e : Emu) : Emu * bool :=
  let romData := if ines_header file then typed_slice file 16 (zlen file) else file in
  match loadCHRRom romData (e_ppu e) with
  | None => (e, true)
  | Some ppu =>
      loadRom (typed_slice romData 0 (-8192)) (mkEmu (e_regs e) (e_mem e) ppu (e_loaded e))
  end.

(** ** Value ranges *)

(** A, X, Y, SP and the status are bytes and PC a 16-bit address. *)
Definition regs_in_range (r : Regs) : Prop :=
  0 <= a r < 256 /\ 0 <= x r < 256 /\ 0 <= y r < 256 /\ 0 <= pc r < 0x10000 /\
  0 <= sp r < 256 /\ 0 <= status r < 256.

(** Every cell of [mainMemory] holds a byte. *)
Definition mem_bytes (m : Mem) : Prop := forall i, 0 <= m i < 256.

(** An element of the [args] array [decodeInstruction] builds: a byte of
    [mainMemory], or [undefined]. *)
Definition arg_ok (o : option Z) : Prop :=
  match o with Some b => 0 <= b < 256 | None => True end.

End Cpu6502.

Import Cpu6502.

(** ** General lemmas *)

Lemma testbit_flag_if (c : bool) (mask s i : Z) :
  0 <= i -> Z.testbit (flag_if c mask s) i = if Z.testbit mask i then c else Z.testbit s i.
Proof.
  intros Hi. unfold flag_if. destruct c.
  - rewrite Z.lor_spec. destruct (Z.testbit mask i); [apply orb_true_r | apply orb_false_r].
  - rewrite Z.land_spec, Z.lnot_spec by exact Hi.
    destruct (Z.testbit mask i); [apply andb_false_r | apply andb_true_r].
Qed.

Lemma testbit_set_zn (v s i : Z) :
  0 <= i -> Z.testbit (set_zn v s) i =
  if Z.testbit 0x80 i then truthy (Z.land v 0x80)
  else if Z.testbit 0x02 i then (v =? 0) else Z.testbit s i.
Proof.
  intros Hi. unfold set_zn. rewrite !testbit_flag_if by exact Hi. reflexivity.
Qed.

Lemma truthy_land_pow2 (v k : Z) :
  0 <= k -> truthy (Z.land v (2 ^ k)) = Z.testbit v k.
Proof.
  intros Hk. unfold truthy.
  destruct (Z.testbit v k) eqn:E.
  - apply negb_true_iff, Z.eqb_neq. intros H0.
    assert (Z.testbit (Z.land v (2 ^ k)) k = false) as F by (rewrite H0; apply Z.testbit_0_l).
    rewrite Z.land_spec, Z.pow2_bits_true, E in F by exact Hk. discriminate.
  - apply negb_false_iff, Z.eqb_eq. apply Z.bits_inj'. intros n Hn.
    rewrite Z.land_spec, Z.pow2_bits_eqb, Z.testbit_0_l by exact Hk.
    destruct (Z.eqb_spec k n) as [<-|_]; [rewrite E; reflexivity | apply andb_false_r].
Qed.

Lemma to_int32_small (z : Z) : 0 <= z < 2 ^ 31 -> to_int32 (Some z) = z.
Proof.
  intros H. unfold to_int32. rewrite Z.mod_small by lia.
  destruct (Z.geb_spec z (2 ^ 31)); lia.
Qed.

Lemma land_ffff_small (v : Z) : 0 <= v < 65536 -> Z.land v 0xFFFF = v.
Proof.
  intros H. change 0xFFFF with (Z.ones 16). rewrite Z.land_ones by lia.
  apply Z.mod_small. exact H.
Qed.

Lemma land_ffff_mod (v : Z) : Z.land v 0xFFFF = v mod 65536.
Proof. change 0xFFFF with (Z.ones 16). rewrite Z.land_ones by lia. reflexivity. Qed.

Lemma land_ff_mod (v : Z) : Z.land v 0xFF = v mod 256.
Proof. change 0xFF with (Z.ones 8). rewrite Z.land_ones by lia. reflexivity. Qed.

(** [(hi << 8) | lo] is [hi * 256 + lo] for a byte [lo]. *)
Lemma lor_shiftl8 (hi lo : Z) :
  0 <= lo < 256 -> Z.lor (Z.shiftl hi 8) lo = hi * 256 + lo.
Proof.
  intros Hlo.
  assert (Hd : Z.land (Z.shiftl hi 8) lo = 0).
  { apply Z.bits_inj'. intros n Hn. rewrite Z.land_spec, Z.testbit_0_l.
    destruct (Z.ltb_spec n 8).
    - rewrite Z.shiftl_spec_low by lia. reflexivity.
    - replace lo with (lo mod 2 ^ 8) by (apply Z.mod_small; simpl; lia).
      rewrite Z.mod_pow2_bits_high by lia. apply andb_false_r. }
  rewrite <- Z.lxor_lor by exact Hd. rewrite <- Z.add_nocarry_lxor by exact Hd.
  rewrite Z.shiftl_mul_pow2 by lia. reflexivity.
Qed.

Lemma shl8_byte (hi : Z) : 0 <= hi < 256 -> shl8 (JN hi) = hi * 256.
Proof.
  intros H. unfold shl8, int32_of. cbn [js_number].
  rewrite (to_int32_small hi) by (simpl; lia). rewrite Z.shiftl_mul_pow2 by lia.
  apply to_int32_small. simpl. lia.
Qed.

Lemma int32_of_byte (v : Z) : 0 <= v < 256 -> int32_of (JN v) = v.
Proof. intros H. apply to_int32_small. simpl. lia. Qed.

Lemma lor_mul256 (hi lo : Z) : 0 <= lo < 256 -> Z.lor (hi * 256) lo = hi * 256 + lo.
Proof.
  intros H. rewrite <- lor_shiftl8 by exact H. rewrite Z.shiftl_mul_pow2 by lia. reflexivity.
Qed.

Lemma byte_land_ff (v : Z) : 0 <= v < 256 -> Z.land v 0xFF = v.
Proof. intros H. rewrite land_ff_mod. apply Z.mod_small. exact H. Qed.

Lemma lor_byte_bound (u v : Z) : 0 <= u < 256 -> 0 <= v < 256 -> 0 <= Z.lor u v < 256.
Proof.
  intros Hu Hv.
  assert (E : Z.land (Z.lor u v) 0xFF = Z.lor u v).
  { rewrite Z.land_lor_distr_l, !byte_land_ff by assumption. reflexivity. }
  rewrite <- E, land_ff_mod. apply Z.mod_pos_bound. lia.
Qed.

Lemma carry_in_bit0 (r : Regs) : carry_in r = if Z.testbit (status r) 0 then 1 else 0.
Proof.
  unfold carry_in. change 0x01 with (2 ^ 0). rewrite truthy_land_pow2 by lia. reflexivity.
Qed.

Lemma compare_carry_bit (reg loc : Z) (r : Regs) (m : Mem) :
  Z.testbit (status (fst (compare reg loc r m))) 0 = true.
Proof.
  unfold compare. cbn [fst status with_status].
  rewrite testbit_set_zn, testbit_flag_if by lia. cbn -[Z.land].
  apply Z.geb_le. apply Z.land_nonneg. right. lia.
Qed.

(** ** C1 *)

(** C1 (the code contradicts its comment "Set carry flag if result is
    non-negative (A >= M)"): [CMP], [CPX] and [CPY] test [result >= 0] on a
    [result] already reduced by [& 0xFF], so Carry ends up set on every
    input, [reg < M] included. *)
Theorem CMP_CPX_CPY_carry_always_set (loc : Z) (r : Regs) (m : Mem) :
  Z.testbit (status (fst (CMP loc r m))) 0 = true /\
  Z.testbit (status (fst (CPX loc r m))) 0 = true /\
  Z.testbit (status (fst (CPY loc r m))) 0 = true.
Proof.
  unfold CMP, CPX, CPY. split; [|split]; apply compare_carry_bit.
Qed.

(** ** C2 *)

(** C2 (the code contradicts its docstring "X,Z,N = X+1"): [INX] stores
    [(X - 1) mod 256] into X and [INY] stores [(Y - 1) mod 256] into Y. *)
Theorem INX_INY_decrement (r : Regs) (m : Mem) :
  x (fst (INX r m)) = (x r - 1) mod 256 /\ y (fst (INY r m)) = (y r - 1) mod 256.
Proof.
  unfold INX, INY. cbn [fst x y with_status with_x with_y]. rewrite !land_ff_mod. split; reflexivity.
Qed.

(** ** C3 *)

(** C3 (the code contradicts its comment "Check if overflow flag is
    clear"): [BVC] branches exactly when bit 2 of the status byte is clear
    and [BVS] exactly when it is set; bit 6 plays no part. *)
Theorem BVC_BVS_test_bit2 (d : Operand) (r : Regs) (m : Mem) :
  BVC d r m = (if Z.testbit (status r) 2 then (r, m) else branch true d r m) /\
  BVS d r m = (if Z.testbit (status r) 2 then branch true d r m else (r, m)).
Proof.
  unfold BVC, BVS. change 0x04 with (2 ^ 2). rewrite truthy_land_pow2 by lia.
  destruct (Z.testbit (status r) 2); split; reflexivity.
Qed.

(** ** C4 *)

(** C4: [ADC] stores [(A + M + c) & 0xFF] in A, sets Carry iff
    [A + M + c > 255], sets Overflow iff [(A ^ M) & 0x80 == 0] and
    [(A ^ result) & 0x80 != 0], and recomputes Zero and Negative from the
    stored result; X, Y, PC, SP and memory are left alone. *)
Theorem ADC_result_and_flags (loc : Z) (r : Regs) (m : Mem) :
  let M := m loc in
  let c := if Z.testbit (status r) 0 then 1 else 0 in
  let sum := a r + M + c in
  let result := Z.land sum 0xFF in
  let r' := fst (ADC loc r m) in
  a r' = result /\
  Z.testbit (status r') 0 = (sum >? 255) /\
  Z.testbit (status r') 6 =
    ((Z.land (Z.lxor (a r) M) 0x80 =? 0) && negb (Z.land (Z.lxor (a r) result) 0x80 =? 0)) /\
  Z.testbit (status r') 1 = (result =? 0) /\
  Z.testbit (status r') 7 = Z.testbit result 7 /\
  x r' = x r /\ y r' = y r /\ pc r' = pc r /\ sp r' = sp r /\ snd (ADC loc r m) = m.
Proof.
  cbv zeta. unfold ADC. rewrite carry_in_bit0.
  cbn [fst snd a x y pc sp status with_status with_a].
  rewrite !testbit_set_zn, !testbit_flag_if by lia. cbn -[Z.land Z.lxor Z.testbit].
  change 0x80 with (2 ^ 7). rewrite truthy_land_pow2 by lia.
  repeat split; reflexivity.
Qed.

(** ** C5 *)

(** C5, as stated, fails: the Absolute,X resolver returns a bare number,
    and the same number [0x0100] comes back for base [0x00FF] with X = 1
    (a page crossing) and for base [0x0100] with X = 0 (none), so no
    page-crossed report can be read off its result. *)
Lemma getAbsoluteX_no_page_report :
  ~ exists report : Z -> bool,
      forall lo hi xv, 0 <= lo < 256 -> 0 <= hi < 256 -> 0 <= xv < 256 ->
        report (getAbsoluteX (mkRegs 0 xv 0 0 0 0) (JN lo) (JN hi)) = (lo + xv >? 0xFF).
Proof.
  intros [report H].
  pose proof (H 0xFF 0 1 ltac:(lia) ltac:(lia) ltac:(lia)) as H1.
  pose proof (H 0 1 0 ltac:(lia) ltac:(lia) ltac:(lia)) as H2.
  vm_compute in H1, H2. congruence.
Qed.

(** C5 (amended): for bytes [lo], [hi], [zp] and a register value in
    [0, 255], the Absolute,X, Absolute,Y and Indirect,Y resolvers return
    only the effective address [(base + reg) mod 65536], where the
    Indirect,Y base is the little-endian word at [zp], [(zp + 1) & 0xFF]. *)
Theorem indexed_resolvers_address (lo hi zp : Z) (r : Regs) (m : Mem) :
  0 <= lo < 256 -> 0 <= hi < 256 -> 0 <= zp < 256 -> (forall i, 0 <= m i < 256) ->
  getAbsoluteX r (JN lo) (JN hi) = (hi * 256 + lo + x r) mod 65536 /\
  getAbsoluteY r (JN lo) (JN hi) = (hi * 256 + lo + y r) mod 65536 /\
  getIndirectYIndexed r m (JN zp) =
    (m ((zp + 1) mod 256) * 256 + m zp + y r) mod 65536.
Proof.
  intros Hlo Hhi Hzp Hm.
  unfold getIndirectYIndexed, getAbsoluteY, getAbsoluteX, getAbsolute.
  rewrite shl8_byte, int32_of_byte, lor_mul256 by assumption.
  rewrite (int32_of_byte zp), byte_land_ff by assumption.
  rewrite !land_ffff_mod, land_ff_mod, Z.lor_comm, Z.shiftl_mul_pow2 by lia.
  change (2 ^ 8) with 256. rewrite lor_mul256 by apply Hm.
  repeat split; reflexivity.
Qed.

(** ** C7 *)

(** C7: for operand bytes [lo], [hi] and byte-valued memory, the Indirect
    resolver returns [(mem[(hi << 8) | ((lo + 1) & 0xFF)] << 8) |
    mem[(hi << 8) | lo]]; with [(0xFF, 0x02)] the high byte comes from
    [0x0200]. *)
Theorem getIndirect_page_wrap (lo hi : Z) (m : Mem) :
  0 <= lo < 256 -> 0 <= hi < 256 -> (forall i, 0 <= m i < 256) ->
  getIndirect m (JN lo) (JN hi) =
    Z.lor (Z.shiftl (m (Z.lor (Z.shiftl hi 8) (Z.land (lo + 1) 0xFF))) 8)
          (m (Z.lor (Z.shiftl hi 8) lo)) /\
  getIndirect m (JN 0xFF) (JN 0x02) = Z.lor (Z.shiftl (m 0x0200) 8) (m 0x02FF).
Proof.
  intros Hlo Hhi Hm.
  assert (Gen : forall l h, 0 <= l < 256 -> 0 <= h < 256 ->
    getIndirect m (JN l) (JN h) =
    Z.lor (Z.shiftl (m (Z.lor (Z.shiftl h 8) (Z.land (l + 1) 0xFF))) 8)
          (m (Z.lor (Z.shiftl h 8) l))).
  { intros l h Hl Hh. unfold getIndirect, js_and_opt. cbn [js_add].
    rewrite shl8_byte, int32_of_byte by exact Hl || exact Hh.
    rewrite (to_int32_small (l + 1)) by (simpl; lia).
    assert (Hb : 0 <= Z.land (l + 1) 0xFF < 256)
      by (rewrite land_ff_mod; apply Z.mod_pos_bound; lia).
    rewrite !Z.shiftl_mul_pow2 by lia. change (2 ^ 8) with 256.
    rewrite (lor_mul256 h l), (lor_mul256 h (Z.land (l + 1) 0xFF)) by assumption.
    rewrite (land_ffff_small (h * 256 + l)) by lia.
    rewrite (land_ffff_small (h * 256 + Z.land (l + 1) 0xFF)) by lia.
    rewrite lor_mul256 by (apply Hm).
    pose proof (Hm (h * 256 + Z.land (l + 1) 0xFF)).
    pose proof (Hm (h * 256 + l)).
    apply land_ffff_small. lia. }
  split; [apply Gen; assumption|].
  rewrite Gen by lia. reflexivity.
Qed.

(** C5 witness: base [0x00FF] indexed by X = Y = 1 and the zero-page
    pointer at [0x10] on identity-byte memory. *)
Lemma indexed_resolvers_address_witness :
  getAbsoluteX (mkRegs 0 1 1 0 0 0) (JN 0xFF) (JN 0x00) = 0x0100 /\
  getIndirectYIndexed (mkRegs 0 1 1 0 0 0) (fun i => i mod 256) (JN 0x10) = 0x1111.
Proof.
  destruct (indexed_resolvers_address 0xFF 0x00 0x10 (mkRegs 0 1 1 0 0 0) (fun i => i mod 256)
              ltac:(lia) ltac:(lia) ltac:(lia) (fun i => Z.mod_pos_bound i 256 ltac:(lia)))
    as [H1 [_ H3]].
  split; [rewrite H1 | rewrite H3]; reflexivity.
Defined.

(** C7 witness: the page-wrap case on memory holding [0x34] at [0x02FF],
    [0x12] at [0x0200] and [0x56] at [0x0300]. *)
Lemma getIndirect_page_wrap_witness :
  getIndirect (fun i => if i =? 0x02FF then 0x34 else if i =? 0x0200 then 0x12
                        else if i =? 0x0300 then 0x56 else 0) (JN 0xFF) (JN 0x02) = 0x1234.
Proof.
  destruct (getIndirect_page_wrap 0xFF 0x02
              (fun i => if i =? 0x02FF then 0x34 else if i =? 0x0200 then 0x12
                        else if i =? 0x0300 then 0x56 else 0) ltac:(lia) ltac:(lia))
    as [_ H].
  - intros i. destruct (i =? 0x02FF), (i =? 0x0200), (i =? 0x0300); lia.
  - rewrite H. reflexivity.
Defined.

(** ** C10 *)

(** C10, as stated, fails: PHP does set bits 4 and 5 of the live status
    register and stores that byte at [0x0100 + SP], but it also decrements
    SP, so not all other registers are unchanged. *)
Lemma PHP_frame_counterexample :
  ~ (forall (r : Regs) (m : Mem),
       status (fst (PHP r m)) = Z.lor (status r) 0x30 /\
       snd (PHP r m) (0x0100 + sp r) = Z.lor (status r) 0x30 /\
       a (fst (PHP r m)) = a r /\ x (fst (PHP r m)) = x r /\
       y (fst (PHP r m)) = y r /\ pc (fst (PHP r m)) = pc r /\
       sp (fst (PHP r m)) = sp r /\
       (forall i, i <> 0x0100 + sp r -> snd (PHP r m) i = m i)).
Proof.
  intros H. destruct (H (mkRegs 0 0 0 0x0600 0xFF 0) (fun _ => 0)) as (_ & _ & _ & _ & _ & _ & Hsp & _).
  vm_compute in Hsp. discriminate.
Qed.

(** C10 (amended): for a stack pointer and status in [0, 255], PHP sets
    the live status register to [status | 0x30] (bits 4 and 5 set), writes
    that byte to [0x0100 + SP], decrements SP modulo 256, and leaves A, X,
    Y, PC and every other memory byte unchanged. *)
Theorem PHP_sets_live_status (r : Regs) (m : Mem) :
  0 <= sp r < 256 -> 0 <= status r < 256 ->
  status (fst (PHP r m)) = Z.lor (status r) 0x30 /\
  Z.testbit (status (fst (PHP r m))) 4 = true /\
  Z.testbit (status (fst (PHP r m))) 5 = true /\
  snd (PHP r m) (0x0100 + sp r) = Z.lor (status r) 0x30 /\
  a (fst (PHP r m)) = a r /\ x (fst (PHP r m)) = x r /\
  y (fst (PHP r m)) = y r /\ pc (fst (PHP r m)) = pc r /\
  sp (fst (PHP r m)) = (sp r - 1) mod 256 /\
  (forall i, i <> 0x0100 + sp r -> snd (PHP r m) i = m i).
Proof.
  intros Hsp Hst.
  assert (Hb : 0 <= Z.lor (status r) 0x30 < 256) by (apply lor_byte_bound; lia).
  unfold PHP, push, mem_set, with_status, with_sp; cbn [fst snd a x y pc sp status].
  assert (Hin : in_mem (0x0100 + sp r) = true) by (unfold in_mem; lia).
  rewrite Hin, Z.eqb_refl, byte_land_ff, land_ff_mod by exact Hb.
  repeat split; try reflexivity.
  - rewrite Z.lor_spec. change 0x30 with 48. rewrite orb_true_iff. right. reflexivity.
  - rewrite Z.lor_spec. change 0x30 with 48. rewrite orb_true_iff. right. reflexivity.
  - intros i Hi. replace (i =? 0x0100 + sp r) with false
      by (symmetry; apply Z.eqb_neq; lia). reflexivity.
Qed.

(** C10 witness: PHP with SP = [0xFD] and status [0x24]. *)
Lemma PHP_sets_live_status_witness :
  status (fst (PHP (mkRegs 0 0 0 0x0600 0xFD 0x24) (fun _ => 0))) = 0x34 /\
  sp (fst (PHP (mkRegs 0 0 0 0x0600 0xFD 0x24) (fun _ => 0))) = 0xFC.
Proof.
  destruct (PHP_sets_live_status (mkRegs 0 0 0 0x0600 0xFD 0x24) (fun _ => 0)
              ltac:(simpl; lia) ltac:(simpl; lia))
    as (H1 & _ & _ & _ & _ & _ & _ & _ & H2 & _).
  split; [rewrite H1 | rewrite H2]; reflexivity.
Defined.

(** ** The dispatch loop *)

Lemma decode_sets_cycles (cycles : Z -> Z) (s : Machine) (opcode : Z) (ins : OpCode) :
  mem_get (mem s) (pc (regs s)) = Some opcode -> opcode_matrix opcode = Some ins ->
  currentInstructionCycles (fst (fst (decodeInstruction cycles s))) = cycles opcode.
Proof.
  intros Hget Hop. unfold decodeInstruction. rewrite Hget, Hop. cbv zeta.
  destruct (size ins =? 1); [|destruct (size ins =? 2)];
    destruct (executeInstruction _ _ _ _ _); reflexivity.
Qed.

(** A call made while an instruction is still running only counts down. *)
Lemma next_busy (cycles : Z -> Z) (s : Machine) :
  currentInstructionCycles s <> 0 -> next cycles s = tick s.
Proof.
  intros H. unfold next, cpuCycle. rewrite (proj2 (Z.eqb_neq _ _) H). reflexivity.
Qed.

Lemma run_countdown (cycles : Z -> Z) (k : nat) : forall s,
  Z.of_nat k <= currentInstructionCycles s ->
  currentInstructionCycles (run cycles k s) = currentInstructionCycles s - Z.of_nat k.
Proof.
  induction k as [|k IH]; intros s H; [simpl; lia|].
  cbn [run]. rewrite next_busy by lia. rewrite IH; unfold tick; cbn [currentInstructionCycles]; lia.
Qed.

(** The dispatching call that does not throw leaves [cycles opcode - 1]
    calls to go. *)
Lemma dispatch_counter (cycles : Z -> Z) (s : Machine) (opcode : Z) (ins : OpCode) :
  currentInstructionCycles s = 0 ->
  mem_get (mem s) (pc (regs s)) = Some opcode -> opcode_matrix opcode = Some ins ->
  snd (cpuCycle cycles s) = false ->
  currentInstructionCycles (next cycles s) = cycles opcode - 1.
Proof.
  intros Hcur Hget Hop Hnt. pose proof (decode_sets_cycles cycles s opcode ins Hget Hop) as Hd.
  unfold next, cpuCycle in *. rewrite Hcur in *. cbn [Z.eqb] in *.
  destruct (decodeInstruction cycles s) as [[s1 ev] th]. cbn [fst] in Hd.
  destruct th; [discriminate|]. destruct (display_throws (pc (regs s1))); [discriminate|].
  unfold tick. cbn. lia.
Qed.

(** ** C6 *)

(** C6, as stated, fails: BNE (opcode [0xD0], base 2 cycles) at [0x0600]
    with displacement [0xFE] and Z clear is taken, lands on [0x0600], on the
    page of [pc + 2], and yet does not take 3 calls of [cpuCycle]: the
    counter is idle again after 2. *)
Lemma BNE_taken_cycles_counterexample :
  let cyc := fun _ : Z => 2 in
  let m := fun i => if i =? 0x0600 then 0xD0 else if i =? 0x0601 then 0xFE else 0 in
  let s := mkMachine (mkRegs 0 0 0 0x0600 0xFD 0) m 0 0 in
  opcode_matrix 0xD0 = Some (mkOpCode mBNE M_rel 2) /\
  pc (regs (next cyc s)) <> pc (regs s) + 2 /\
  Z.shiftr (pc (regs (next cyc s))) 8 = Z.shiftr (pc (regs s) + 2) 8 /\
  ~ consumes cyc s 3.
Proof.
  cbv zeta. split; [reflexivity|]. split; [vm_compute; discriminate|].
  split; [vm_compute; reflexivity|].
  intros (_ & _ & Hk). apply (Hk 2%nat); [lia|]. vm_compute. reflexivity.
Qed.

(** C6 (amended): no handler adds cycles, so every instruction the loop
    dispatches (a taken or untaken branch included) keeps the counter busy
    for exactly its base cycle count [b]: when the dispatching call does not
    throw, [b] calls of [cpuCycle] bring it back to idle, and no fewer. *)
Theorem dispatch_consumes_base_cycles (cycles : Z -> Z) (s : Machine) (opcode : Z) (ins : OpCode) :
  cycle_table_ok cycles -> currentInstructionCycles s = 0 ->
  mem_get (mem s) (pc (regs s)) = Some opcode -> opcode_matrix opcode = Some ins ->
  snd (cpuCycle cycles s) = false ->
  consumes cycles s (Z.to_nat (cycles opcode)).
Proof.
  intros Hok Hcur Hget Hop Hnt.
  assert (Hb : 1 <= cycles opcode) by (apply Hok; rewrite Hop; discriminate).
  pose proof (dispatch_counter cycles s opcode ins Hcur Hget Hop Hnt) as Hn.
  assert (Hrun : forall k, (0 < k)%nat -> Z.of_nat k <= cycles opcode ->
            currentInstructionCycles (run cycles k s) = cycles opcode - Z.of_nat k).
  { intros [|k] Hk Hle; [lia|]. cbn [run]. rewrite run_countdown; lia. }
  split; [lia|]. split.
  - rewrite Hrun by lia. lia.
  - intros k Hk. rewrite Hrun by lia. lia.
Qed.

(** Every opcode-table entry pairs its handler with a resolver of the
    kind the handler reads: an address for the handlers that take one, the
    accumulator only for the shifts and rotates. *)
Lemma opcode_matrix_operand_kinds :
  forallb (fun op => match opcode_matrix op with
                     | Some ins => operand_kind_ok ins | None => true end)
          (map Z.of_nat (seq 0 256)) = true.
Proof. vm_compute. reflexivity. Qed.

(** C6 witness: the taken BNE of the counterexample, base 2 cycles. *)
Lemma dispatch_consumes_base_cycles_witness :
  consumes (fun _ => 2)
    (mkMachine (mkRegs 0 0 0 0x0600 0xFD 0)
       (fun i => if i =? 0x0600 then 0xD0 else if i =? 0x0601 then 0xFE else 0) 0 0) 2.
Proof.
  apply (dispatch_consumes_base_cycles (fun _ => 2)
           (mkMachine (mkRegs 0 0 0 0x0600 0xFD 0)
              (fun i => if i =? 0x0600 then 0xD0 else if i =? 0x0601 then 0xFE else 0) 0 0)
           0xD0 (mkOpCode mBNE M_rel 2));
    [intros op _; lia | reflexivity | reflexivity | reflexivity | vm_compute; reflexivity].
Defined.

(** ** C8 *)

(** C8: once the loop meets an opcode byte with no table entry, the
    dispatching call reports it with that byte and changes neither the
    registers nor memory, and no later call executes an instruction:
    registers and memory stay as they were for any number of calls. *)
Theorem unknown_opcode_halts (cycles : Z -> Z) (s : Machine) (opcode : Z) :
  currentInstructionCycles s = 0 ->
  mem_get (mem s) (pc (regs s)) = Some opcode -> opcode_matrix opcode = None ->
  regs (next cycles s) = regs s /\ mem (next cycles s) = mem s /\
  snd (fst (cpuCycle cycles s)) = EvUnknownOpcode opcode /\
  forall n, regs (run cycles n s) = regs s /\ mem (run cycles n s) = mem s /\
            forall ins, snd (fst (cpuCycle cycles (run cycles n s))) <> EvExecuted ins.
Proof.
  intros Hcur Hget Hop.
  set (P := fun t => regs t = regs s /\ mem t = mem s /\
                     (currentInstructionCycles t < 0 \/ currentInstructionCycles t = 0)).
  assert (Step : forall t, P t ->
            P (next cycles t) /\ forall ins, snd (fst (cpuCycle cycles t)) <> EvExecuted ins).
  { intros t (Hr & Hm & Hc). unfold next, cpuCycle.
    destruct Hc as [Hc | Hc].
    - rewrite (proj2 (Z.eqb_neq (currentInstructionCycles t) 0) ltac:(lia)). unfold tick. cbn.
      repeat split; try assumption; [left; cbn [currentInstructionCycles]; lia | discriminate].
    - rewrite Hc. cbn [Z.eqb]. unfold decodeInstruction.
      rewrite Hr, Hm, Hget, Hop.
      destruct (display_throws (pc (regs t))); cbn; unfold P, tick; cbn;
        (split; [repeat split; cbn [regs mem currentInstructionCycles]; auto; lia | discriminate]). }
  assert (Hs : P s) by (unfold P; auto).
  assert (Hall : forall n t, P t -> P (run cycles n t)).
  { induction n as [|n IH]; intros t Ht; [exact Ht|]. cbn [run]. apply IH, Step, Ht. }
  split; [|split; [|split]].
  - apply (proj1 (Step s Hs)).
  - apply (proj1 (Step s Hs)).
  - unfold cpuCycle, decodeInstruction. rewrite Hcur, Hget, Hop. cbn [Z.eqb].
    destruct (display_throws (pc (regs s))); reflexivity.
  - intros n. destruct (Hall n s Hs) as (Hr & Hm & Hc). split; [exact Hr|]. split; [exact Hm|].
    apply Step. apply Hall, Hs.
Qed.

(** C8 witness: the byte [0x02] at [0x0600] has no table entry. *)
Lemma unknown_opcode_halts_witness :
  opcode_matrix 0x02 = None /\
  regs (run (fun _ => 2) 5 (mkMachine (mkRegs 1 2 3 0x0600 0xFD 0x24)
                              (fun i => if i =? 0x0600 then 0x02 else 0xEA) 0 0))
  = mkRegs 1 2 3 0x0600 0xFD 0x24.
Proof.
  destruct (unknown_opcode_halts (fun _ => 2)
              (mkMachine (mkRegs 1 2 3 0x0600 0xFD 0x24)
                 (fun i => if i =? 0x0600 then 0x02 else 0xEA) 0 0) 0x02
              eq_refl eq_refl eq_refl) as (_ & _ & _ & Hn).
  split; [reflexivity|]. exact (proj1 (Hn 5%nat)).
Defined.

(** ** C9 *)

(** C9 fails in the code: the fetch stage does [pc += size] without the
    [& 0xFFFF] that the handlers apply ("Ensure it wraps around at
    0xFFFF").  With the reset vector pointing at [0xFFFE] and LDA absolute
    ([0xAD], 3 bytes) stored there, the first call of [cpuCycle] after
    [loadRom] leaves PC at [0x10001 = 65537]. *)
Theorem fetch_pc_not_wrapped :
  let m := fun i => if i =? 0xFFFC then 0xFE else if i =? 0xFFFD then 0xFF
                    else if i =? 0xFFFE then 0xAD else 0 in
  opcode_matrix 0xAD = Some (mkOpCode mLDA M_abs 3) /\
  pc (regs (loadRom_state m)) = 0xFFFE /\
  pc (regs (next (fun _ => 4) (loadRom_state m))) = 65537.
Proof. vm_compute. repeat split; reflexivity. Qed.

(** ** Further properties of the handlers and the loop *)

Lemma regs_eq (r1 r2 : Regs) :
  a r1 = a r2 -> x r1 = x r2 -> y r1 = y r2 -> pc r1 = pc r2 -> sp r1 = sp r2 ->
  status r1 = status r2 -> r1 = r2.
Proof. destruct r1, r2; cbn; intros; subst; reflexivity. Qed.

Lemma mem_set_same (m : Mem) (i v : Z) : in_mem i = true -> mem_set m i v i = Z.land v 0xFF.
Proof. intros H. unfold mem_set. rewrite H, Z.eqb_refl. reflexivity. Qed.

Lemma mem_set_other (m : Mem) (i v j : Z) : j <> i -> mem_set m i v j = m j.
Proof. intros H. unfold mem_set. rewrite (proj2 (Z.eqb_neq j i) H), andb_false_r. reflexivity. Qed.

Lemma stack_in_mem (s : Z) : 0 <= s < 256 -> in_mem (0x0100 + s) = true.
Proof. intros H. unfold in_mem. rewrite andb_true_iff, Z.leb_le, Z.ltb_lt. lia. Qed.

Lemma sp_dec_inc (s : Z) : 0 <= s < 256 -> Z.land (Z.land (s - 1) 0xFF + 1) 0xFF = s.
Proof.
  intros H. rewrite !land_ff_mod, Z.add_mod_idemp_l by lia.
  replace (s - 1 + 1) with s by lia. apply Z.mod_small. exact H.
Qed.

Lemma sp_dec_bound (s : Z) : 0 <= Z.land (s - 1) 0xFF < 256.
Proof. rewrite land_ff_mod. apply Z.mod_pos_bound. lia. Qed.

Lemma sp_dec_neq (s : Z) : 0 <= s < 256 -> Z.land (s - 1) 0xFF <> s.
Proof. intros H. rewrite land_ff_mod. destruct (Z.eq_dec s 0); [subst; cbn; lia|].
  rewrite Z.mod_small by lia. lia. Qed.

(** A property of bytes checked on all 256 of them. *)
Lemma byte_forall (P : Z -> bool) :
  forallb P (map Z.of_nat (seq 0 256)) = true -> forall v, 0 <= v < 256 -> P v = true.
Proof.
  intros H v Hv. rewrite forallb_forall in H. apply H. apply in_map_iff.
  exists (Z.to_nat v). split; [lia|]. apply in_seq. lia.
Qed.

Lemma byte_forall2 (P : Z -> Z -> bool) :
  forallb (fun u => forallb (P u) (map Z.of_nat (seq 0 256))) (map Z.of_nat (seq 0 256)) = true ->
  forall u v, 0 <= u < 256 -> 0 <= v < 256 -> P u v = true.
Proof.
  intros H u v Hu Hv.
  exact (byte_forall (P u) (byte_forall (fun u => forallb (P u) (map Z.of_nat (seq 0 256))) H u Hu) v Hv).
Qed.

Lemma set_zn_set_zn (v w s : Z) : set_zn v (set_zn w s) = set_zn v s.
Proof.
  apply Z.bits_inj'. intros i Hi. rewrite !testbit_set_zn by exact Hi.
  destruct (Z.testbit 0x80 i), (Z.testbit 0x02 i); reflexivity.
Qed.

(** Pushing A then pulling it gives A back, restores SP, and sets Z and N
    from A; nothing else in the registers changes. *)
Theorem PHA_PLA_round_trip (r : Regs) (m : Mem) :
  0 <= sp r < 256 -> 0 <= a r < 256 ->
  fst (PLA (fst (PHA r m)) (snd (PHA r m))) = with_status r (set_zn (a r) (status r)).
Proof.
  intros Hs Ha. unfold PHA, PLA, push.
  cbn [fst snd sp a status with_sp with_a with_status].
  rewrite sp_dec_inc, mem_set_same, (byte_land_ff (a r)) by (try apply stack_in_mem; lia).
  apply regs_eq; reflexivity.
Qed.

(** Pushing the status then pulling it back restores SP and leaves the
    status with its bits 4 and 5 cleared ([status & ~0x30]). *)
Theorem PHP_PLP_round_trip (r : Regs) (m : Mem) :
  0 <= sp r < 256 -> 0 <= status r < 256 ->
  fst (PLP (fst (PHP r m)) (snd (PHP r m))) = with_status r (Z.land (status r) (Z.lnot 0x30)).
Proof.
  intros Hs Hst. unfold PHP, PLP, push.
  cbn [fst snd sp a status with_sp with_a with_status].
  rewrite sp_dec_inc, mem_set_same by (try apply stack_in_mem; lia).
  apply regs_eq; try reflexivity. cbn [status].
  apply Z.eqb_eq.
  refine (byte_forall (fun s => Z.land (Z.land (Z.lor s 0x30) 0xFF) (Z.lnot 0x30)
                                =? Z.land s (Z.lnot 0x30)) _ _ Hst).
  vm_compute. reflexivity.
Qed.

Lemma land_ff_twice (v : Z) : Z.land (Z.land v 0xFF) 0xFF = Z.land v 0xFF.
Proof. rewrite !land_ff_mod. apply Zmod_mod. Qed.

(** A 16-bit word split into [(w >> 8) & 0xFF] and [w & 0xFF] and put back
    together with [(hi << 8) | lo]. *)
Lemma word_split_join (w : Z) :
  0 <= w < 65536 -> Z.lor (Z.shiftl (Z.land (Z.shiftr w 8) 0xFF) 8) (Z.land w 0xFF) = w.
Proof.
  intros H. rewrite lor_shiftl8 by (rewrite land_ff_mod; apply Z.mod_pos_bound; lia).
  rewrite !land_ff_mod, Z.shiftr_div_pow2 by lia. change (2 ^ 8) with 256.
  rewrite (Z.mod_small (w / 256)) by (split; [apply Z.div_pos | apply Z.div_lt_upper_bound]; lia).
  pose proof (Z.div_mod w 256 ltac:(lia)). lia.
Qed.

Lemma pc_dec_inc (p : Z) : 0 <= p < 65536 -> Z.land (Z.land (p - 1) 0xFFFF + 1) 0xFFFF = p.
Proof.
  intros H. rewrite !land_ffff_mod, Z.add_mod_idemp_l by lia.
  replace (p - 1 + 1) with p by lia. apply Z.mod_small. exact H.
Qed.

(** JSR followed by RTS gives back every register: PC is the address JSR
    left in it (the byte after the instruction) and SP is restored. *)
Theorem JSR_RTS_round_trip (loc : Z) (r : Regs) (m : Mem) :
  0 <= sp r < 256 -> 0 <= pc r < 65536 ->
  fst (RTS (fst (JSR loc r m)) (snd (JSR loc r m))) = r.
Proof.
  intros Hs Hp. unfold JSR, RTS, push.
  cbn [fst snd sp a x y pc status with_sp with_pc with_a with_status].
  pose proof (sp_dec_bound (sp r)) as Hb. pose proof (sp_dec_neq (sp r) Hs) as Hne.
  set (ret := Z.land (pc r - 1) 0xFFFF).
  assert (Hret : 0 <= ret < 65536) by (unfold ret; rewrite land_ffff_mod; apply Z.mod_pos_bound; lia).
  set (sp1 := Z.land (sp r - 1) 0xFF) in *.
  rewrite (sp_dec_inc sp1) by lia.
  assert (E : Z.land (sp1 + 1) 0xFF = sp r) by (apply sp_dec_inc; exact Hs). rewrite E.
  rewrite mem_set_same by (apply stack_in_mem; lia).
  rewrite mem_set_other by lia. rewrite mem_set_same by (apply stack_in_mem; lia).
  rewrite !land_ff_twice, word_split_join, (land_ffff_small ret) by exact Hret.
  unfold ret. rewrite pc_dec_inc by exact Hp.
  apply regs_eq; reflexivity.
Qed.

(** BRK followed by RTI restores SP, returns to the byte after the padding
    byte ([pc + 1]) and leaves the status with bits 4 and 5 cleared. *)
Theorem BRK_RTI_round_trip (r : Regs) (m : Mem) :
  0 <= sp r < 256 -> 0 <= status r < 256 ->
  fst (RTI (fst (BRK r m)) (snd (BRK r m))) =
  with_pc (with_status r (Z.land (status r) (Z.lnot 0x30))) (Z.land (pc r + 1) 0xFFFF).
Proof.
  intros Hs Hst. unfold BRK, RTI, push.
  cbn [fst snd sp a x y pc status with_sp with_pc with_a with_status].
  pose proof (sp_dec_bound (sp r)) as Hb. pose proof (sp_dec_neq (sp r) Hs) as Hne.
  set (ret := Z.land (pc r + 1) 0xFFFF).
  assert (Hret : 0 <= ret < 65536) by (unfold ret; rewrite land_ffff_mod; apply Z.mod_pos_bound; lia).
  set (sp1 := Z.land (sp r - 1) 0xFF) in *.
  pose proof (sp_dec_bound sp1) as Hb2. pose proof (sp_dec_neq sp1 Hb) as Hne2.
  set (sp2 := Z.land (sp1 - 1) 0xFF) in *.
  assert (Hne3 : sp2 <> sp r).
  { unfold sp2, sp1. rewrite !land_ff_mod, Zminus_mod_idemp_l.
    destruct (Z_lt_le_dec (sp r) 2) as [Hl | Hl].
    - destruct (Z.eq_dec (sp r) 0) as [E | E]; [rewrite E; discriminate|].
      replace (sp r) with 1 by lia. discriminate.
    - rewrite Z.mod_small by lia. lia. }
  assert (E1 : Z.land (sp2 + 1) 0xFF = sp1) by (apply sp_dec_inc; exact Hb).
  assert (E2 : Z.land (sp1 + 1) 0xFF = sp r) by (apply sp_dec_inc; exact Hs).
  rewrite (sp_dec_inc sp2) by lia. rewrite E1, E2.
  rewrite (mem_set_same _ (256 + sp2)) by (apply stack_in_mem; lia).
  rewrite (mem_set_other _ (256 + sp2) _ (256 + sp1)) by lia.
  rewrite (mem_set_same _ (256 + sp1)) by (apply stack_in_mem; lia).
  rewrite (mem_set_other _ (256 + sp2) _ (256 + sp r)) by lia.
  rewrite (mem_set_other _ (256 + sp1) _ (256 + sp r)) by lia.
  rewrite (mem_set_same _ (256 + sp r)) by (apply stack_in_mem; lia).
  rewrite !land_ff_twice, word_split_join, (land_ffff_small ret) by exact Hret.
  apply regs_eq; try reflexivity. cbn [status with_pc with_status].
  apply Z.eqb_eq.
  refine (byte_forall (fun s => Z.land (Z.land (Z.lor s 0x10) 0xFF) (Z.lnot 0x30)
                                =? Z.land s (Z.lnot 0x30)) _ _ Hst).
  vm_compute. reflexivity.
Qed.

(** ROL A followed by ROR A gives A and the carry back; only Z and N are
    recomputed, from A. *)
Theorem ROL_ROR_round_trip (r : Regs) (m : Mem) :
  0 <= a r < 256 -> 0 <= status r < 256 ->
  fst (ROR None (fst (ROL None r m)) (snd (ROL None r m))) = with_status r (set_zn (a r) (status r)).
Proof.
  destruct r as [a0 x0 y0 pc0 sp0 st0]. cbn [a status]. intros Ha Hst.
  pose proof (byte_forall2 (fun u v =>
    let r' := fst (ROR None (fst (ROL None (mkRegs u 0 0 0 0 v) (fun _ => 0)))
                            (snd (ROL None (mkRegs u 0 0 0 0 v) (fun _ => 0)))) in
    (a r' =? u) && (status r' =? set_zn u v)) ltac:(vm_compute; reflexivity) a0 st0 Ha Hst) as K.
  cbv zeta in K. apply andb_true_iff in K. destruct K as [K1 K2].
  apply Z.eqb_eq in K1, K2.
  apply regs_eq; try reflexivity; [exact K1 | exact K2].
Qed.

(** SBC gives the registers ADC gives on the one's complement of the
    operand ([M ^ 0xFF]): same A, same C, V, Z and N. *)
Theorem SBC_is_ADC_of_complement (loc : Z) (r : Regs) (m : Mem) :
  in_mem loc = true -> 0 <= a r < 256 -> 0 <= m loc < 256 ->
  fst (SBC loc r m) = fst (ADC loc r (mem_set m loc (Z.lxor (m loc) 0xFF))).
Proof.
  intros Hin Ha Hv. unfold SBC, ADC. rewrite mem_set_same by exact Hin. cbv zeta.
  assert (K : forall u v, 0 <= u < 256 -> 0 <= v < 256 -> forall c, c = 0 \/ c = 1 ->
            Z.land (u - v - (1 - c)) 0xFF = Z.land (u + Z.land (Z.lxor v 0xFF) 0xFF + c) 0xFF /\
            negb (u - v - (1 - c) <? 0) = (u + Z.land (Z.lxor v 0xFF) 0xFF + c >? 0xFF) /\
            negb (Z.land (Z.lxor u v) 0x80 =? 0) =
              (Z.land (Z.lxor u (Z.land (Z.lxor v 0xFF) 0xFF)) 0x80 =? 0)).
  { intros u v Hu Hv' c Hc.
    pose proof (byte_forall2 (fun u v =>
      forallb (fun c =>
        (Z.land (u - v - (1 - c)) 0xFF =? Z.land (u + Z.land (Z.lxor v 0xFF) 0xFF + c) 0xFF) &&
        Bool.eqb (negb (u - v - (1 - c) <? 0)) (u + Z.land (Z.lxor v 0xFF) 0xFF + c >? 0xFF) &&
        Bool.eqb (negb (Z.land (Z.lxor u v) 0x80 =? 0))
                 (Z.land (Z.lxor u (Z.land (Z.lxor v 0xFF) 0xFF)) 0x80 =? 0)) [0; 1])
      ltac:(vm_compute; reflexivity) u v Hu Hv') as B.
    cbv beta in B. apply forallb_forall with (x := c) in B; [|destruct Hc; subst; cbn; tauto].
    apply andb_true_iff in B as [B B3]. apply andb_true_iff in B as [B1 B2].
    apply Z.eqb_eq in B1. apply eqb_prop in B2, B3. auto. }
  assert (Hc : carry_in r = 0 \/ carry_in r = 1)
    by (rewrite carry_in_bit0; destruct (Z.testbit (status r) 0); auto).
  destruct (K (a r) (m loc) Ha Hv (carry_in r) Hc) as (E1 & E2 & E3).
  rewrite E1, E2, E3. reflexivity.
Qed.

(** INC followed by DEC on the same in-range address restores the byte and
    the rest of memory; the registers change only in Z and N, set from
    the byte. *)
Theorem INC_DEC_round_trip (loc : Z) (r : Regs) (m : Mem) :
  in_mem loc = true -> 0 <= m loc < 256 ->
  fst (DEC loc (fst (INC loc r m)) (snd (INC loc r m))) = with_status r (set_zn (m loc) (status r)) /\
  forall i, snd (DEC loc (fst (INC loc r m)) (snd (INC loc r m))) i = m i.
Proof.
  intros Hin Hv. unfold INC, DEC. cbn [fst snd status with_status].
  rewrite mem_set_same by exact Hin. rewrite land_ff_twice.
  assert (E : Z.land (Z.land (m loc + 1) 0xFF - 1) 0xFF = m loc).
  { rewrite !land_ff_mod, Zminus_mod_idemp_l. replace (m loc + 1 - 1) with (m loc) by lia.
    apply Z.mod_small. exact Hv. }
  rewrite E. split.
  - rewrite set_zn_set_zn. reflexivity.
  - intros i. unfold mem_set. rewrite Hin. cbn [andb].
    destruct (Z.eqb_spec i loc) as [-> | _]; [apply byte_land_ff; exact Hv | reflexivity].
Qed.

(** ** How the loop's [args] array reaches the resolvers *)

Lemma string_app_assoc (s1 s2 s3 : string) : ((s1 ++ s2) ++ s3 = s1 ++ (s2 ++ s3))%string.
Proof. induction s1 as [|c s1 IH]; cbn; [reflexivity | rewrite IH; reflexivity]. Qed.

Lemma parse_digits_app (s1 s2 : string) : forall acc,
  parse_digits (s1 ++ s2)%string acc =
  match parse_digits s1 acc with Some v => parse_digits s2 v | None => None end.
Proof.
  induction s1 as [|c s1 IH]; intros acc; cbn; [reflexivity|].
  destruct ((0 <=? Z.of_nat (nat_of_ascii c) - 48) && (Z.of_nat (nat_of_ascii c) - 48 <=? 9));
    [apply IH | reflexivity].
Qed.

(** A comma stops [Number()]. *)
Lemma parse_digits_comma (s1 s2 : string) (acc : Z) : parse_digits (s1 ++ String "," s2)%string acc = None.
Proof. rewrite parse_digits_app. destruct (parse_digits s1 acc); reflexivity. Qed.

Lemma js_to_number_not_minus (c : ascii) (t : string) :
  c <> "-"%char -> js_to_number (String c t) = parse_digits (String c t) 0.
Proof.
  intros H. destruct c as [[] [] [] [] [] [] [] []]; try reflexivity.
  exfalso. apply H. reflexivity.
Qed.

Lemma js_to_number_comma (s1 s2 : string) : js_to_number (s1 ++ String "," s2)%string = None.
Proof.
  destruct s1 as [|c s1]; [reflexivity|].
  destruct (ascii_dec c "-") as [-> | Hc].
  - cbn [append]. destruct (s1 ++ String "," s2)%string eqn:E.
    + destruct s1; discriminate.
    + cbn - [parse_digits]. rewrite <- E, parse_digits_comma. reflexivity.
  - cbn [append]. rewrite js_to_number_not_minus by exact Hc.
    change (String c (s1 ++ String "," s2)) with (String c s1 ++ String "," s2)%string.
    apply parse_digits_comma.
Qed.

Lemma js_number_pair (e1 e2 : option Z) : js_number (JA [e1; e2]) = None.
Proof. apply js_to_number_comma. Qed.

Lemma js_add_pair (e1 e2 : option Z) (n : Z) : js_add (JA [e1; e2]) n = None.
Proof.
  cbn [js_add array_to_string]. rewrite string_app_assoc. apply js_to_number_comma.
Qed.

Lemma getAbsolute_pair (e1 e2 : option Z) : getAbsolute (JA [e1; e2]) JU = 0.
Proof. unfold getAbsolute, int32_of. rewrite js_number_pair. reflexivity. Qed.

(** Called by [executeInstruction] with its two-element [args] array, the
    Absolute, Absolute,X, Absolute,Y and Indirect resolvers ignore the
    operand bytes: the array converts to [NaN] (its string has a comma),
    so they resolve to [0], [X], [Y] and the word [mem[0] * 257]. *)
Theorem absolute_modes_ignore_operands (e1 e2 : option Z) (r : Regs) (m : Mem) :
  address_mode_handlers M_abs [e1; e2] r m = ONum 0 /\
  address_mode_handlers M_absX [e1; e2] r m = ONum (Z.land (x r) 0xFFFF) /\
  address_mode_handlers M_absY [e1; e2] r m = ONum (Z.land (y r) 0xFFFF) /\
  address_mode_handlers M_ind [e1; e2] r m = ONum (Z.land (Z.lor (Z.shiftl (m 0) 8) (m 0)) 0xFFFF).
Proof.
  cbn [address_mode_handlers]. unfold getAbsoluteX, getAbsoluteY, getIndirect, js_and_opt.
  rewrite !getAbsolute_pair, js_add_pair. unfold shl8, int32_of. rewrite js_number_pair.
  repeat split; reflexivity.
Qed.

(** In the loop, JMP absolute ([0x4C]) and JSR ([0x20]) always leave PC at
    [0], whatever their operand bytes. *)
Theorem loop_JMP_JSR_absolute_target_zero (cycles : Z -> Z) (s : Machine) (opcode : Z) :
  currentInstructionCycles s = 0 -> mem_get (mem s) (pc (regs s)) = Some opcode ->
  opcode = 0x4C \/ opcode = 0x20 ->
  pc (regs (next cycles s)) = 0.
Proof.
  intros Hcur Hget Hop. unfold next, cpuCycle, decodeInstruction.
  rewrite Hcur, Hget. cbn [Z.eqb].
  destruct Hop as [-> | ->]; cbn [opcode_matrix instruction_name addressing_mode size Z.eqb Pos.eqb];
    unfold executeInstruction; cbn [address_mode_handlers handler with_location];
    rewrite getAbsolute_pair.
  - unfold JMP.
    destruct (match mem_get _ _, mem_get _ _ with Some _, Some _ => false | _, _ => true end);
      [reflexivity|].
    destruct (display_throws _); reflexivity.
  - unfold JSR, push. cbn [fst snd].
    destruct (match mem_get _ _, mem_get _ _ with Some _, Some _ => false | _, _ => true end);
      [reflexivity|].
    destruct (display_throws _); reflexivity.
Qed.

Lemma digit_char_value (d : Z) :
  0 <= d < 10 -> Z.of_nat (nat_of_ascii (digit_char d)) - 48 = d.
Proof.
  intros H. unfold digit_char. rewrite nat_ascii_embedding by lia. lia.
Qed.

Lemma parse_digit_cons (d : Z) (t : string) (acc : Z) :
  0 <= d < 10 -> parse_digits (String (digit_char d) t) acc = parse_digits t (acc * 10 + d).
Proof.
  intros H. cbn [parse_digits]. rewrite digit_char_value by exact H.
  replace ((0 <=? d) && (d <=? 9)) with true by (symmetry; apply andb_true_iff; lia).
  reflexivity.
Qed.

Lemma dec_digits_S (f : nat) (n : Z) (t : string) :
  dec_digits (S f) n t =
  if n <? 10 then String (digit_char (n mod 10)) t
  else dec_digits f (n / 10) (String (digit_char (n mod 10)) t).
Proof. reflexivity. Qed.

(** [dec_digits] writes the [k] decimal digits of [n] in front of [t]. *)
Lemma dec_digits_parse (fuel : nat) : forall n t acc,
  0 <= n < 10 ^ Z.of_nat (S fuel) ->
  exists k, 1 <= k /\ n < 10 ^ k /\ (k = 1 \/ 10 ^ (k - 1) <= n) /\
    parse_digits (dec_digits (S fuel) n t) acc = parse_digits t (acc * 10 ^ k + n).
Proof.
  induction fuel as [|f IH]; intros n t acc Hn.
  - cbn [dec_digits]. change (10 ^ Z.of_nat 1) with 10 in Hn.
    replace (n <? 10) with true by (symmetry; apply Z.ltb_lt; lia).
    exists 1. repeat split; try lia. rewrite parse_digit_cons by (apply Z.mod_pos_bound; lia).
    rewrite Z.mod_small by lia. reflexivity.
  - rewrite dec_digits_S. destruct (Z.ltb_spec n 10) as [Hl | Hl].
    + exists 1. repeat split; try lia. rewrite parse_digit_cons by (apply Z.mod_pos_bound; lia).
      rewrite Z.mod_small by lia. reflexivity.
    + assert (Hq : 0 <= n / 10 < 10 ^ Z.of_nat (S f)).
      { split; [apply Z.div_pos; lia|]. apply Z.div_lt_upper_bound; [lia|].
        rewrite <- Z.pow_succ_r by lia. replace (Z.succ (Z.of_nat (S f))) with (Z.of_nat (S (S f))) by lia.
        lia. }
      destruct (IH (n / 10) (String (digit_char (n mod 10)) t) acc Hq) as (k & Hk1 & Hk2 & Hk3 & Hp).
      exists (k + 1). rewrite Z.pow_add_r by lia. change (10 ^ 1) with 10.
      pose proof (Z.div_mod n 10 ltac:(lia)) as Hdm. pose proof (Z.mod_pos_bound n 10 ltac:(lia)).
      repeat split; try lia.
      * right. replace (k + 1 - 1) with k by lia. destruct Hk3 as [-> | Hk3]; [lia|].
        replace (10 ^ k) with (10 * 10 ^ (k - 1)) by (rewrite <- (Z.pow_succ_r 10 (k - 1)) by lia; f_equal; lia).
        lia.
      * rewrite Hp, parse_digit_cons by lia. f_equal. lia.
Qed.

(** [Number(String(n))] in a concatenation: [String(n)] is [k] digits. *)
Lemma dec_parse (n acc : Z) (t : string) :
  0 <= n ->
  exists k, 1 <= k /\ n < 10 ^ k /\ (k = 1 \/ 10 ^ (k - 1) <= n) /\
    parse_digits (dec n ++ t)%string acc = parse_digits t (acc * 10 ^ k + n).
Proof.
  intros Hn. unfold dec. replace (n <? 0) with false by (symmetry; apply Z.ltb_ge; lia).
  assert (Hb : 0 <= n < 10 ^ Z.of_nat (S (Z.to_nat (Z.log2 n)))).
  { split; [exact Hn|]. rewrite Nat2Z.inj_succ, Z2Nat.id by apply Z.log2_nonneg.
    destruct (Z.eq_dec n 0) as [-> | Hnz]; [reflexivity|].
    apply Z.lt_le_trans with (2 ^ Z.succ (Z.log2 n)).
    - apply Z.log2_spec. lia.
    - apply Z.pow_le_mono_l. lia. }
  destruct (dec_digits_parse (Z.to_nat (Z.log2 n)) n EmptyString acc Hb) as (k & H1 & H2 & H3 & H4).
  exists k. repeat split; try assumption.
  rewrite parse_digits_app, H4. reflexivity.
Qed.

Lemma string_app_nil (s : string) : (s ++ EmptyString)%string = s.
Proof. induction s as [|c s IH]; cbn; [reflexivity | rewrite IH; reflexivity]. Qed.

Lemma dec_digits_cons (f : nat) : forall n c t, exists c' t', dec_digits f n (String c t) = String c' t'.
Proof.
  induction f as [|f IH]; intros n c t; [eexists; eexists; reflexivity|].
  rewrite dec_digits_S. destruct (n <? 10); [eexists; eexists; reflexivity | apply IH].
Qed.

Lemma dec_cons (n : Z) : 0 <= n -> exists c t, dec n = String c t.
Proof.
  intros Hn. unfold dec. replace (n <? 0) with false by (symmetry; apply Z.ltb_ge; lia).
  rewrite dec_digits_S. destruct (n <? 10); [eexists; eexists; reflexivity | apply dec_digits_cons].
Qed.

Lemma js_to_number_digits (s : string) (v : Z) :
  parse_digits s 0 = Some v -> s <> EmptyString -> js_to_number s = Some v.
Proof.
  intros H Hne. destruct s as [|c t]; [contradiction|].
  destruct (ascii_dec c "-") as [-> | Hc]; [discriminate H|].
  rewrite js_to_number_not_minus by exact Hc. exact H.
Qed.

(** [Number(String(b) + String(n))] is [b * 10^k + n], [k] the number of
    digits of [n]. *)
Lemma js_concat_number (b n : Z) :
  0 <= b -> 0 <= n ->
  exists k, 1 <= k /\ n < 10 ^ k /\ (k = 1 \/ 10 ^ (k - 1) <= n) /\
    js_to_number (dec b ++ dec n)%string = Some (b * 10 ^ k + n).
Proof.
  intros Hb Hn. destruct (dec_parse b 0 (dec n) Hb) as (kb & _ & _ & _ & Hpb).
  destruct (dec_parse n (0 * 10 ^ kb + b) EmptyString Hn) as (k & H1 & H2 & H3 & Hpn).
  exists k. repeat split; try assumption.
  apply js_to_number_digits.
  - rewrite Hpb. rewrite string_app_nil in Hpn. rewrite Hpn. cbn. f_equal; lia.
  - destruct (dec_cons b Hb) as (c & t & ->). discriminate.
Qed.

Lemma js_number_dec (b : Z) : 0 <= b -> js_to_number (dec b) = Some b.
Proof.
  intros Hb. destruct (dec_parse b 0 EmptyString Hb) as (k & _ & _ & _ & Hp).
  rewrite string_app_nil in Hp. apply js_to_number_digits.
  - rewrite Hp. reflexivity.
  - destruct (dec_cons b Hb) as (c & t & ->). discriminate.
Qed.

(** The digit count of a number below 1000 as a power of ten. *)
Lemma pow10_digits (n k : Z) :
  1 <= k -> n < 10 ^ k -> (k = 1 \/ 10 ^ (k - 1) <= n) -> 0 <= n < 1000 ->
  10 ^ k = if n <? 10 then 10 else if n <? 100 then 100 else 1000.
Proof.
  intros H1 H2 H3 Hn.
  assert (Hk : k = 1 \/ k = 2 \/ k = 3 \/ 4 <= k) by lia.
  destruct Hk as [-> | [-> | [-> | Hk]]].
  - cbn in *. destruct (Z.ltb_spec n 10); lia.
  - cbn in *. destruct H3 as [H3 | H3]; [lia|].
    destruct (Z.ltb_spec n 10), (Z.ltb_spec n 100); lia.
  - cbn in *. destruct H3 as [H3 | H3]; [lia|].
    destruct (Z.ltb_spec n 10), (Z.ltb_spec n 100); lia.
  - exfalso. destruct H3 as [H3 | H3]; [lia|].
    assert (10 ^ 3 <= 10 ^ (k - 1)) by (apply Z.pow_le_mono_r; lia). cbn in *. lia.
Qed.

Lemma to_int32_mod256 (z : Z) : to_int32 (Some z) mod 256 = z mod 256.
Proof.
  unfold to_int32. change (2 ^ 32) with 4294967296. change (2 ^ 31) with 2147483648.
  pose proof (Z.div_mod z 4294967296 ltac:(lia)) as H.
  destruct (z mod 4294967296 >=? 2147483648).
  - replace (z mod 4294967296 - 4294967296)
      with (z + (- (z / 4294967296) * 16777216 - 16777216) * 256) by lia.
    apply Z.mod_add. lia.
  - replace (z mod 4294967296) with (z + (- (z / 4294967296) * 16777216) * 256) by lia.
    apply Z.mod_add. lia.
Qed.

Lemma to_int32_mod65536 (z : Z) : to_int32 (Some z) mod 65536 = z mod 65536.
Proof.
  unfold to_int32. change (2 ^ 32) with 4294967296. change (2 ^ 31) with 2147483648.
  pose proof (Z.div_mod z 4294967296 ltac:(lia)) as H.
  destruct (z mod 4294967296 >=? 2147483648).
  - replace (z mod 4294967296 - 4294967296)
      with (z + (- (z / 4294967296) * 65536 - 65536) * 65536) by lia.
    apply Z.mod_add. lia.
  - replace (z mod 4294967296) with (z + (- (z / 4294967296) * 65536) * 65536) by lia.
    apply Z.mod_add. lia.
Qed.

(** Called by [executeInstruction] with [args = [b]], Zero Page,X,
    Zero Page,Y and (Indirect,X) add the index register to the array, which
    JavaScript does by string concatenation: the zero-page address is
    [(b * 10^k + X) mod 256], [k] the number of decimal digits of X (of Y
    for Zero Page,Y). *)
Theorem zeropage_indexed_modes_concatenate (b : Z) (r : Regs) (m : Mem) :
  0 <= b -> 0 <= x r < 256 -> 0 <= y r < 256 ->
  let zx := (b * (if x r <? 10 then 10 else if x r <? 100 then 100 else 1000) + x r) mod 256 in
  let zy := (b * (if y r <? 10 then 10 else if y r <? 100 then 100 else 1000) + y r) mod 256 in
  address_mode_handlers M_zpgX [Some b] r m = ONum zx /\
  address_mode_handlers M_zpgY [Some b] r m = ONum zy /\
  address_mode_handlers M_Xind [Some b] r m =
    ONum (Z.land (Z.lor (m zx) (Z.shiftl (m (Z.land (zx + 1) 0xFF)) 8)) 0xFFFF).
Proof.
  intros Hb Hx Hy zx zy.
  assert (Ex : js_and_opt (js_add (JA [Some b]) (x r)) 0xFF = zx).
  { destruct (js_concat_number b (x r) Hb ltac:(lia)) as (k & H1 & H2 & H3 & H4).
    unfold js_and_opt, js_add. cbn [array_to_string elem_to_string]. rewrite H4.
    rewrite land_ff_mod, to_int32_mod256. unfold zx. rewrite <- (pow10_digits (x r) k) by lia.
    reflexivity. }
  assert (Ey : js_and_opt (js_add (JA [Some b]) (y r)) 0xFF = zy).
  { destruct (js_concat_number b (y r) Hb ltac:(lia)) as (k & H1 & H2 & H3 & H4).
    unfold js_and_opt, js_add. cbn [array_to_string elem_to_string]. rewrite H4.
    rewrite land_ff_mod, to_int32_mod256. unfold zy. rewrite <- (pow10_digits (y r) k) by lia.
    reflexivity. }
  cbn [address_mode_handlers]. unfold getZeropageXIndexed, getZeropageYIndexed, getXIndexedIndirect.
  rewrite Ex, Ey. repeat split; reflexivity.
Qed.

(** A branch taken in the loop with a forward displacement [b < 0x80]
    (which [getRelative] returns as the [args] array itself) moves PC to
    [(pc * 10^k + b) mod 65536], [k] the number of decimal digits of [b]; a
    backward displacement [b >= 0x80] moves it to [(pc + b - 256) mod
    65536]. *)
Theorem loop_branch_displacement (b : Z) (r : Regs) (m : Mem) :
  0 <= b < 256 -> 0 <= pc r ->
  branch true (address_mode_handlers M_rel [Some b] r m) r m =
  (with_pc r (if b <? 0x80
              then (pc r * (if b <? 10 then 10 else if b <? 100 then 100 else 1000) + b) mod 65536
              else (pc r + b - 256) mod 65536), m).
Proof.
  intros Hb Hp. cbn [address_mode_handlers]. unfold getRelative, int32_of.
  cbn [js_number array_to_string elem_to_string]. rewrite js_number_dec by lia.
  rewrite to_int32_small by lia.
  assert (Hbit : truthy (Z.land b 0x80) = negb (b <? 0x80)).
  { refine (proj1 (Bool.eqb_true_iff _ _) (byte_forall
      (fun b => Bool.eqb (truthy (Z.land b 0x80)) (negb (b <? 0x80))) _ b Hb)).
    vm_compute. reflexivity. }
  rewrite Hbit. unfold branch, js_and_opt. destruct (Z.ltb_spec b 0x80) as [Hl | Hl]; cbn [negb].
  - cbn [js_add_pc array_to_string elem_to_string].
    destruct (js_concat_number (pc r) b Hp ltac:(lia)) as (k & H1 & H2 & H3 & H4).
    rewrite H4, land_ffff_mod, to_int32_mod65536, <- (pow10_digits b k) by lia.
    reflexivity.
  - cbn [js_add_pc]. rewrite land_ffff_mod, to_int32_mod65536. do 3 f_equal. lia.
Qed.

(** ** The loop with the opcode table of the sources *)

Lemma decode_src_cycles (s : MachineJS) :
  js_cycles (fst (fst (decodeInstruction_src s))) =
  match snd (fst (decodeInstruction_src s)) with EvExecuted _ => NUndef | _ => js_cycles s end.
Proof.
  unfold decodeInstruction_src.
  destruct (decodeInstruction _ _) as [[s1 ev] th]. reflexivity.
Qed.

Lemma decode_src_total (s : MachineJS) :
  js_total (fst (fst (decodeInstruction_src s))) = js_total s.
Proof.
  unfold decodeInstruction_src.
  destruct (decodeInstruction _ _) as [[s1 ev] th]. reflexivity.
Qed.

Lemma stalled_not_zero (c : jsnum) : stalled c = true -> js_eq_zero c = false.
Proof. destruct c as [z| |]; cbn; [intros H; apply Z.eqb_neq; lia | reflexivity ..]. Qed.

Lemma stalled_dec (c : jsnum) : stalled c = true -> stalled (js_dec c) = true.
Proof. destruct c as [z| |]; cbn; [intros H; apply Z.ltb_lt; apply Z.ltb_lt in H; lia | reflexivity ..]. Qed.

Lemma cpuCycle_src_stalled (s : MachineJS) :
  stalled (js_cycles s) = true -> cpuCycle_src s = (tick_src s, EvNone, false).
Proof. intros H. unfold cpuCycle_src. rewrite (stalled_not_zero _ H). reflexivity. Qed.

Lemma run_src_stalled (n : nat) : forall s, stalled (js_cycles s) = true ->
  js_regs (run_src n s) = js_regs s /\ js_mem (run_src n s) = js_mem s /\
  stalled (js_cycles (run_src n s)) = true /\
  js_total (run_src n s) = js_total s + Z.of_nat n /\
  events_src n s = repeat EvNone n.
Proof.
  induction n as [|n IH]; intros s H.
  - cbn. repeat split; [exact H | lia].
  - cbn [run_src events_src]. unfold next_src. rewrite (cpuCycle_src_stalled s H). cbn [fst snd].
    destruct (IH (tick_src s) (stalled_dec _ H)) as (E1 & E2 & E3 & E4 & E5).
    rewrite E1, E2, E4, E5. cbn. repeat split; [exact E3 | lia].
Qed.

Lemma cpuCycle_src_executed (s : MachineJS) (ins : OpCode) :
  snd (fst (cpuCycle_src s)) = EvExecuted ins -> stalled (js_cycles (next_src s)) = true.
Proof.
  unfold next_src, cpuCycle_src.
  destruct (js_eq_zero (js_cycles s)); [|discriminate].
  pose proof (decode_src_cycles s) as Hc.
  destruct (decodeInstruction_src s) as [[s1 ev] th]. cbn [fst snd] in Hc |- *.
  destruct th; [|destruct (display_throws (pc (js_regs s1)))]; cbn [fst snd]; intros ->;
    cbn [tick_src js_cycles] in *; rewrite Hc; reflexivity.
Qed.

(** With the opcode table of the sources, whose entries have no [cycles]
    field, [cpuCycle] dispatches at most one instruction in any number of
    calls: dispatching sets the counter to [undefined], which [--] turns
    into [NaN], and [NaN === 0] never holds. *)
Theorem loop_dispatches_at_most_once (n : nat) (s : MachineJS) :
  (List.length (filter is_executed (events_src n s)) <= 1)%nat.
Proof.
  revert s. induction n as [|n IH]; intros s; cbn [events_src filter List.length]; [lia|].
  destruct (snd (fst (cpuCycle_src s))) as [| op | ins] eqn:E; cbn [is_executed]; try apply IH.
  destruct (run_src_stalled n (next_src s) (cpuCycle_src_executed s ins E)) as (_ & _ & _ & _ & ->).
  clear. cbn [List.length]. induction n as [|n IH]; cbn; lia.
Qed.

(** After a call of [cpuCycle] that dispatched an instruction, every later
    call leaves the registers and memory as they are and only counts
    [totalCycles] up. *)
Theorem loop_frozen_after_dispatch (s : MachineJS) (ins : OpCode) (n : nat) :
  snd (fst (cpuCycle_src s)) = EvExecuted ins ->
  js_regs (run_src n (next_src s)) = js_regs (next_src s) /\
  js_mem (run_src n (next_src s)) = js_mem (next_src s) /\
  js_total (run_src n (next_src s)) = js_total (next_src s) + Z.of_nat n.
Proof.
  intros H. destruct (run_src_stalled n (next_src s) (cpuCycle_src_executed s ins H))
    as (E1 & E2 & _ & E4 & _). auto.
Qed.

(** The counter is never positive after a call when it was not before
    (it starts at 0), so every click of the step button makes exactly one
    call of [cpuCycle]. *)
Theorem step_button_single_call (fuel : nat) (s : MachineJS) :
  js_gt_zero (js_cycles s) = false ->
  step_button fuel s = next_src s /\ js_gt_zero (js_cycles (next_src s)) = false.
Proof.
  intros H.
  assert (Hn : js_gt_zero (js_cycles (next_src s)) = false).
  { unfold next_src, cpuCycle_src.
    destruct (js_eq_zero (js_cycles s)) eqn:Ez.
    - pose proof (decode_src_cycles s) as Hc.
      destruct (decodeInstruction_src s) as [[s1 ev] th]. cbn [fst snd] in Hc |- *.
      assert (Hs1 : js_gt_zero (js_cycles s1) = false /\ js_gt_zero (js_dec (js_cycles s1)) = false).
      { rewrite Hc. destruct ev; [| |split; reflexivity];
          destruct (js_cycles s) as [z| |]; cbn in Ez |- *; try discriminate;
          apply Z.eqb_eq in Ez; subst z; split; reflexivity. }
      destruct th; [|destruct (display_throws (pc (js_regs s1)))]; cbn [fst]; apply Hs1.
    - cbn [fst tick_src js_cycles]. destruct (js_cycles s) as [z| |]; cbn in H |- *; try reflexivity.
      apply Z.ltb_ge. apply Z.ltb_ge in H. lia. }
  split; [|exact Hn]. unfold next_src in *. destruct fuel; cbn [step_button];
    destruct (cpuCycle_src s) as [[s1 ev] th]; cbn [fst] in *; [reflexivity|].
  rewrite Hn. destruct th; reflexivity.
Qed.

(** ** Reading a ROM file *)

Ltac zcmp :=
  repeat match goal with
  | |- context [?a <=? ?b] => destruct (Z.leb_spec a b); try lia
  | |- context [?a <? ?b] => destruct (Z.ltb_spec a b); try lia
  end.

Lemma zlen_app {A} (l1 l2 : list A) : zlen (l1 ++ l2) = zlen l1 + zlen l2.
Proof. unfold zlen. rewrite length_app. lia. Qed.

Lemma zlen_nonneg {A} (l : list A) : 0 <= zlen l.
Proof. unfold zlen. lia. Qed.

Lemma ines_header_app (h t : list Z) :
  (4 <= List.length h)%nat -> ines_header (h ++ t) = ines_header h.
Proof.
  intros H. destruct h as [|b0 [|b1 [|b2 [|b3 h]]]]; cbn in H; try lia. reflexivity.
Qed.

(** [romData.slice(16)] on a file [hdr ++ rest] with a 16-byte header. *)
Lemma typed_slice_header (hdr rest : list Z) :
  List.length hdr = 16%nat -> typed_slice (hdr ++ rest) 16 (zlen (hdr ++ rest)) = rest.
Proof.
  intros H. unfold typed_slice. rewrite zlen_app.
  assert (Hh : zlen hdr = 16) by (unfold zlen; rewrite H; reflexivity). rewrite Hh.
  pose proof (zlen_nonneg rest) as Hr.
  replace (16 <? 0) with false by reflexivity.
  destruct (Z.ltb_spec (16 + zlen rest) 0) as [Hn|_]; [lia|].
  rewrite Z.min_id, (Z.min_l 16) by lia.
  replace (Z.to_nat 16) with (List.length hdr) by (rewrite H; reflexivity).
  rewrite skipn_app, skipn_all, Nat.sub_diag. cbn [app skipn].
  replace (Z.to_nat (16 + zlen rest - 16)) with (List.length rest) by (unfold zlen in *; lia).
  apply firstn_all.
Qed.

(** [romData.slice(0, -8192)] keeps all but the last 8192 bytes, nothing
    when there are not more. *)
Lemma typed_slice_drop_chr (d : list Z) :
  typed_slice d 0 (-8192) = firstn (Z.to_nat (zlen d - 8192)) d.
Proof.
  unfold typed_slice. replace (0 <? 0) with false by reflexivity.
  replace (-8192 <? 0) with true by reflexivity.
  pose proof (zlen_nonneg d). rewrite Z.min_l by lia. cbn [Z.to_nat skipn].
  f_equal. lia.
Qed.

(** [romData.slice(romData.length - 8192, romData.length)]: the last 8192
    bytes; for a shorter array the negative start counts from the end. *)
Lemma typed_slice_chr (d : list Z) :
  typed_slice d (zlen d - 8192) (zlen d) =
  skipn (Z.to_nat (if zlen d <? 8192 then 2 * zlen d - 8192 else zlen d - 8192)) d.
Proof.
  unfold typed_slice. pose proof (zlen_nonneg d) as Hd.
  destruct (Z.ltb_spec (zlen d) 0) as [|_]; [lia|]. rewrite Z.min_id.
  assert (Hl : forall k, (List.length (skipn k d) = List.length d - k)%nat) by (intros; apply length_skipn).
  destruct (Z.ltb_spec (zlen d - 8192) 0) as [Hn|Hn]; destruct (Z.ltb_spec (zlen d) 8192); try lia.
  - rewrite firstn_all2; [f_equal; lia|]. rewrite Hl. unfold zlen in *. lia.
  - rewrite Z.min_l by lia. rewrite firstn_all2; [reflexivity|]. rewrite Hl. unfold zlen in *. lia.
Qed.

Lemma nth_default_zero (l : list Z) (n : nat) :
  (List.length l <= n)%nat -> nth n l 0 = 0.
Proof. apply nth_overflow. Qed.

(** [loadCHRRom] never throws. PPU bytes 0 to 8191 receive the data from
    offset [len - 8192] for [len >= 8192]; for a shorter array the offset is
    [max 0 (2 * len - 8192)] (the negative slice start counts from the end),
    and the bytes past the data are 0. The rest of PPU memory is kept. *)
Theorem loadCHRRom_contents (d : list Z) (ppu : Mem) :
  exists ppu', loadCHRRom d ppu = Some ppu' /\
  forall i, ppu' i =
    if (0 <=? i) && (i <? 8192)
    then nth (Z.to_nat i)
           (skipn (Z.to_nat (if zlen d <? 8192 then 2 * zlen d - 8192 else zlen d - 8192)) d) 0
    else ppu i.
Proof.
  unfold loadCHRRom. rewrite typed_slice_chr.
  set (part := skipn _ d).
  assert (Hp : zlen part <= 8192).
  { unfold part. pose proof (zlen_nonneg d).
    destruct (Z.ltb_spec (zlen d) 8192); unfold zlen in *; rewrite length_skipn; lia. }
  pose proof (zlen_nonneg part).
  unfold typed_set at 1. replace (0 <? 0) with false by reflexivity.
  destruct (Z.ltb_spec 8192 (zlen part + 0)) as [|_]; [lia|]. cbn [orb].
  unfold typed_set. replace (0 <? 0) with false by reflexivity.
  replace (0x4000 <? 8192 + 0) with false by reflexivity. cbn [orb].
  eexists. split; [reflexivity|]. intros i.
  rewrite !Z.add_0_l, !Z.sub_0_r.
  destruct ((0 <=? i) && (i <? 8192)) eqn:Ei; [|reflexivity].
  apply andb_true_iff in Ei as [E1 E2]. apply Z.leb_le in E1.
  unfold list_fn. rewrite (proj2 (Z.leb_le 0 i) E1). cbn [andb].
  destruct (Z.ltb_spec i (zlen part)); [reflexivity|].
  symmetry. apply nth_default_zero. unfold zlen in *. lia.
Qed.

Lemma firstn_app_exact (l1 l2 : list Z) : firstn (List.length l1) (l1 ++ l2) = l1.
Proof. rewrite firstn_app, firstn_all, Nat.sub_diag, firstn_O, app_nil_r. reflexivity. Qed.

Lemma skipn_app_exact (l1 l2 : list Z) : skipn (List.length l1) (l1 ++ l2) = l2.
Proof. rewrite skipn_app, skipn_all, Nat.sub_diag. reflexivity. Qed.

(** [loadRom] on an array that fits: [mainMemory.set] copies it to the top
    of memory, PC is read from the reset vector of the new memory, SP is
    [0xFF], PPU memory is kept. *)
Lemma loadRom_fits (d : list Z) (e : Emu) :
  zlen d <= 0x10000 ->
  let m := fun i => if (0x10000 - zlen d <=? i) && (i <? 0x10000 - zlen d + zlen d)
                    then list_fn d (i - (0x10000 - zlen d)) else e_mem e i in
  let r := with_sp (with_pc (e_regs e) (Z.lor (m 0xFFFC) (Z.shiftl (m 0xFFFD) 8))) 0xFF in
  loadRom d e = (mkEmu r m (e_ppu e) (e_loaded e || negb (display_throws (pc r))),
                 display_throws (pc r)).
Proof.
  intros Hd m r. pose proof (zlen_nonneg d).
  unfold loadRom, typed_set.
  destruct (Z.ltb_spec (0x10000 - zlen d) 0); [lia|].
  destruct (Z.ltb_spec 0x10000 (zlen d + (0x10000 - zlen d))); [lia|]. cbn [orb].
  subst m r. match goal with |- (if display_throws ?p then _ else _) = _ => destruct (display_throws p) end;
    cbn [negb]; rewrite ?orb_false_r, ?orb_true_r; reflexivity.
Qed.

(** An iNES file [hdr ++ prg ++ chr] (16-byte header starting with
    [NES\x1A], 8 KiB of CHR data, a PRG part of 4 to 65536 bytes): the CHR
    data fills PPU bytes 0 to 8191, the PRG part fills the top of main
    memory and the bytes below it are kept, PC is the little-endian word at
    PRG offsets [len - 4] and [len - 3] (the reset vector), SP is [0xFF] and
    A, X, Y and the status are kept. [romLoaded] is set unless the display
    of the bytes around PC throws. *)
Theorem readRom_ines_image (hdr prg chr : list Z) (e : Emu) :
  ines_header hdr = true -> List.length hdr = 16%nat -> zlen chr = 8192 ->
  4 <= zlen prg <= 0x10000 ->
  let P := zlen prg in
  let e' := fst (readRom_onload (hdr ++ prg ++ chr) e) in
  (forall i, 0 <= i < 8192 -> e_ppu e' i = nth (Z.to_nat i) chr 0) /\
  (forall i, 0 <= i < P -> e_mem e' (0x10000 - P + i) = nth (Z.to_nat i) prg 0) /\
  (forall i, i < 0x10000 - P -> e_mem e' i = e_mem e i) /\
  e_regs e' = with_sp (with_pc (e_regs e)
                (Z.lor (nth (Z.to_nat (P - 4)) prg 0) (Z.shiftl (nth (Z.to_nat (P - 3)) prg 0) 8))) 0xFF /\
  snd (readRom_onload (hdr ++ prg ++ chr) e) = display_throws (pc (e_regs e')) /\
  e_loaded e' = e_loaded e || negb (display_throws (pc (e_regs e'))).
Proof.
  intros Hh Hl Hc Hp P e'.
  destruct (loadCHRRom_contents (prg ++ chr) (e_ppu e)) as (ppu & Hppu & Hppu').
  assert (Hz : zlen (prg ++ chr) = P + 8192) by (rewrite zlen_app, Hc; reflexivity).
  assert (Hf : readRom_onload (hdr ++ prg ++ chr) e =
               loadRom prg (mkEmu (e_regs e) (e_mem e) ppu (e_loaded e))).
  { unfold readRom_onload. rewrite ines_header_app, Hh by lia.
    rewrite typed_slice_header by exact Hl. rewrite Hppu, typed_slice_drop_chr, Hz.
    replace (Z.to_nat (P + 8192 - 8192)) with (List.length prg) by (unfold P, zlen; lia).
    rewrite firstn_app_exact. reflexivity. }
  assert (Hfit : zlen prg <= 0x10000) by lia.
  pose proof (loadRom_fits prg (mkEmu (e_regs e) (e_mem e) ppu (e_loaded e)) Hfit) as HL.
  cbv zeta in HL. unfold e'. rewrite Hf, HL. cbn [fst snd e_ppu e_mem e_regs e_loaded pc with_sp with_pc].
  fold P.
  assert (Hm : forall i, 0 <= i < P -> (if (0x10000 - P <=? 0x10000 - P + i) && (0x10000 - P + i <? 0x10000 - P + P)
      then list_fn prg (0x10000 - P + i - (0x10000 - P)) else e_mem e (0x10000 - P + i)) = nth (Z.to_nat i) prg 0).
  { intros i Hi. destruct (Z.leb_spec (0x10000 - P) (0x10000 - P + i)); [|lia].
    destruct (Z.ltb_spec (0x10000 - P + i) (0x10000 - P + P)); [|lia]. cbn [andb].
    unfold list_fn. f_equal. f_equal. lia. }
  assert (Hv : Z.lor
      (if (0x10000 - P <=? 0xFFFC) && (0xFFFC <? 0x10000 - P + P) then list_fn prg (0xFFFC - (0x10000 - P)) else e_mem e 0xFFFC)
      (Z.shiftl (if (0x10000 - P <=? 0xFFFD) && (0xFFFD <? 0x10000 - P + P) then list_fn prg (0xFFFD - (0x10000 - P)) else e_mem e 0xFFFD) 8)
      = Z.lor (nth (Z.to_nat (P - 4)) prg 0) (Z.shiftl (nth (Z.to_nat (P - 3)) prg 0) 8)).
  { pose proof (Hm (P - 4) ltac:(unfold P in *; lia)) as H4.
    pose proof (Hm (P - 3) ltac:(unfold P in *; lia)) as H3.
    replace (0x10000 - P + (P - 4)) with 0xFFFC in H4 by lia.
    replace (0x10000 - P + (P - 3)) with 0xFFFD in H3 by lia.
    rewrite H4, H3. reflexivity. }
  rewrite Hv. split; [|split; [|split; [|split]]].
  - intros i Hi. rewrite Hppu', Hz.
    destruct (Z.leb_spec 0 i); [|lia]. destruct (Z.ltb_spec i 8192); [|lia].
    destruct (Z.ltb_spec (P + 8192) 8192); [unfold P in *; lia|]. cbn [andb].
    replace (Z.to_nat (P + 8192 - 8192)) with (List.length prg) by (unfold P, zlen; lia).
    rewrite skipn_app_exact. reflexivity.
  - exact Hm.
  - intros i Hi. destruct (Z.leb_spec (0x10000 - P) i); [lia|]. reflexivity.
  - reflexivity.
  - split; reflexivity.
Qed.

Lemma zlen_header_strip (file : list Z) :
  let d := if ines_header file then typed_slice file 16 (zlen file) else file in
  zlen file - 16 <= zlen d <= zlen file.
Proof.
  cbv zeta. pose proof (zlen_nonneg file).
  destruct (ines_header file); [|lia].
  unfold typed_slice. replace (16 <? 0) with false by reflexivity.
  destruct (Z.ltb_spec (zlen file) 0); [lia|]. rewrite Z.min_id.
  destruct (Z.leb_spec 16 (zlen file)).
  - rewrite Z.min_l by lia. unfold zlen in *. rewrite length_firstn, length_skipn. lia.
  - rewrite Z.min_r by lia. unfold zlen in *. rewrite length_firstn, length_skipn. lia.
Qed.

Lemma zlen_firstn (n : nat) (d : list Z) : zlen (firstn n d) = Z.min (Z.of_nat n) (zlen d).
Proof. unfold zlen. rewrite length_firstn. lia. Qed.

(** A file of at most 8192 bytes puts nothing into main memory: the array
    given to [loadRom] is empty, every memory byte is kept, PC is read from
    the reset vector already in memory and SP is set to [0xFF]. *)
Theorem readRom_small_file_loads_nothing (file : list Z) (e : Emu) :
  zlen file <= 8192 ->
  let e' := fst (readRom_onload file e) in
  (forall i, e_mem e' i = e_mem e i) /\
  e_regs e' = with_sp (with_pc (e_regs e) (Z.lor (e_mem e 0xFFFC) (Z.shiftl (e_mem e 0xFFFD) 8))) 0xFF.
Proof.
  intros Hf e'. pose proof (zlen_header_strip file) as Hs. cbv zeta in Hs.
  unfold e', readRom_onload.
  set (d := if ines_header file then typed_slice file 16 (zlen file) else file) in *.
  destruct (loadCHRRom_contents d (e_ppu e)) as (ppu & -> & _).
  rewrite typed_slice_drop_chr.
  replace (Z.to_nat (zlen d - 8192)) with O by lia. cbn [firstn].
  rewrite (loadRom_fits [] _ ltac:(cbn; lia)). cbn [fst e_mem e_regs].
  replace (zlen (@nil Z)) with 0 by reflexivity.
  assert (Hm : forall i, (if (0x10000 - 0 <=? i) && (i <? 0x10000 - 0 + 0) then list_fn [] (i - (0x10000 - 0))
                         else e_mem e i) = e_mem e i).
  { intros i. destruct (Z.leb_spec (0x10000 - 0) i); destruct (Z.ltb_spec i (0x10000 - 0 + 0));
      try lia; reflexivity. }
  split; [exact Hm|]. rewrite !Hm. reflexivity.
Qed.

(** A file whose part for [mainMemory] exceeds 64 KiB makes [loadRom]
    throw a [RangeError] before any change: main memory, the registers and
    [romLoaded] are kept. *)
Theorem readRom_oversize_changes_nothing (file : list Z) (e : Emu) :
  0x10000 + 8192 + 16 < zlen file ->
  let res := readRom_onload file e in
  snd res = true /\ e_regs (fst res) = e_regs e /\ e_mem (fst res) = e_mem e /\
  e_loaded (fst res) = e_loaded e.
Proof.
  intros Hf res. pose proof (zlen_header_strip file) as Hs. cbv zeta in Hs.
  unfold res, readRom_onload.
  set (d := if ines_header file then typed_slice file 16 (zlen file) else file) in *.
  destruct (loadCHRRom_contents d (e_ppu e)) as (ppu & -> & _).
  rewrite typed_slice_drop_chr. unfold loadRom, typed_set.
  rewrite zlen_firstn.
  destruct (Z.ltb_spec (0x10000 - Z.min (Z.of_nat (Z.to_nat (zlen d - 8192))) (zlen d)) 0); [|lia].
  cbn. repeat split.
Qed.

(** ** Value ranges kept by the handlers *)

Lemma land_ff_range (v : Z) : 0 <= Z.land v 0xFF < 256.
Proof. rewrite land_ff_mod. apply Z.mod_pos_bound. lia. Qed.

Lemma land_ffff_range (v : Z) : 0 <= Z.land v 0xFFFF < 0x10000.
Proof. rewrite land_ffff_mod. apply Z.mod_pos_bound. lia. Qed.

Lemma flag_if_range (c : bool) (mask s : Z) :
  0 <= mask < 256 -> 0 <= s < 256 -> 0 <= flag_if c mask s < 256.
Proof.
  intros Hm Hs.
  pose proof (byte_forall2 (fun mask s => (0 <=? flag_if c mask s) && (flag_if c mask s <? 256))
                ltac:(destruct c; vm_compute; reflexivity) mask s Hm Hs) as H.
  apply andb_true_iff in H as [H1 H2]. apply Z.leb_le in H1. apply Z.ltb_lt in H2. lia.
Qed.

Lemma set_zn_range (v s : Z) : 0 <= s < 256 -> 0 <= set_zn v s < 256.
Proof. intros Hs. unfold set_zn. apply flag_if_range; [lia|]. apply flag_if_range; lia. Qed.

Lemma lor_range (u v : Z) : 0 <= u < 256 -> 0 <= v < 256 -> 0 <= Z.lor u v < 256.
Proof. apply lor_byte_bound. Qed.

Lemma land_range (u v : Z) : 0 <= u < 256 -> 0 <= Z.land u v < 256.
Proof.
  intros Hu. split; [apply Z.land_nonneg; lia|].
  rewrite <- (byte_land_ff u Hu), <- Z.land_assoc, (Z.land_comm 0xFF), Z.land_assoc.
  apply land_ff_range.
Qed.

Lemma lxor_range (u v : Z) : 0 <= u < 256 -> 0 <= v < 256 -> 0 <= Z.lxor u v < 256.
Proof.
  intros Hu Hv.
  pose proof (byte_forall2 (fun u v => (0 <=? Z.lxor u v) && (Z.lxor u v <? 256))
                ltac:(vm_compute; reflexivity) u v Hu Hv) as H.
  apply andb_true_iff in H as [H1 H2]. apply Z.leb_le in H1. apply Z.ltb_lt in H2. lia.
Qed.

Lemma rotate_in_range (s : Z) : 0 <= s < 256 -> 0 <= Z.shiftl (Z.land s 0x01) 7 < 256.
Proof.
  intros Hs.
  pose proof (byte_forall (fun s => (0 <=? Z.shiftl (Z.land s 0x01) 7) && (Z.shiftl (Z.land s 0x01) 7 <? 256))
                ltac:(vm_compute; reflexivity) s Hs) as H.
  apply andb_true_iff in H as [H1 H2]. apply Z.leb_le in H1. apply Z.ltb_lt in H2. lia.
Qed.

Lemma mem_set_bytes (m : Mem) (i v : Z) : mem_bytes m -> mem_bytes (mem_set m i v).
Proof.
  intros Hm j. unfold mem_set. destruct (in_mem i && (j =? i)); [apply land_ff_range | apply Hm].
Qed.

Lemma push_in_range (v : Z) (r : Regs) (m : Mem) :
  regs_in_range r -> mem_bytes m ->
  regs_in_range (fst (push v (r, m))) /\ mem_bytes (snd (push v (r, m))).
Proof.
  intros Hr Hm. unfold push, regs_in_range in *. cbn. split; [|apply mem_set_bytes; exact Hm].
  pose proof (land_ff_range (sp r - 1)). tauto.
Qed.

Create HintDb ranges.
#[local] Hint Resolve land_ff_range land_ffff_range flag_if_range set_zn_range lor_range
  land_range lxor_range rotate_in_range mem_set_bytes : ranges.
#[local] Hint Extern 1 (0 <= _ < _) => lia : ranges.

Ltac ranges_tac Hr Hm :=
  unfold regs_in_range in Hr |- *; destruct Hr as (? & ? & ? & ? & ? & ?);
  repeat match goal with |- context [fst (if ?c then _ else _)] => destruct c end;
  cbn [fst snd a x y pc sp status with_a with_x with_y with_pc with_sp with_status];
  repeat match goal with
  | |- mem_bytes _ => first [exact Hm | apply mem_set_bytes]
  | |- 0 <= (if ?c then _ else _) < _ => destruct c
  | |- 0 <= _ < _ => solve [unfold mem_bytes in Hm; auto 6 with ranges]
  | |- _ /\ _ => split
  end.

Lemma handler_in_range (name : Mnemonic) (op : Operand) (r : Regs) (m : Mem) :
  regs_in_range r -> mem_bytes m ->
  regs_in_range (fst (handler name op r m)) /\ mem_bytes (snd (handler name op r m)).
Proof.
  intros Hr Hm.
  destruct name; cbn [handler]; try destruct op;
  cbn [with_location with_target];
  unfold ADC, SBC, AND, EOR, ORA, logical, BIT, CMP, CPX, CPY, compare, DEC, INC, DEX, DEY, INX, INY,
    LDA, LDX, LDY, STA, STX, STY, ASL, LSR, ROL, ROR, shift_op, BCC, BCS, BEQ, BNE, BMI, BPL, BVC, BVS,
    branch, BRK, JMP, JSR, NOP, PHA, PHP, PLA, PLP, RTI, RTS, SEC, SED, SEI, CLC, CLD, CLI, CLV,
    set_flag, clear_flag, TAX, TAY, TSX, TXA, TYA, TXS, push, js_and_opt;
  ranges_tac Hr Hm.
Qed.

(** [executeInstruction] never hands a handler an address outside
    [mainMemory]: with the [args] [decodeInstruction] passes (at most two
    bytes or [undefined]s), every resolver but [rel] returns a number in
    [0 .. 0xFFFF]; all but [abs] mask their result, and [abs] on the [args]
    array gives 0 or the single byte it holds. *)
Theorem resolvers_stay_in_memory (mode : AddrMode) (args : list (option Z)) (r : Regs) (m : Mem) (z : Z) :
  (List.length args <= 2)%nat -> Forall arg_ok args -> mode <> M_rel ->
  address_mode_handlers mode args r m = ONum z -> 0 <= z < 0x10000.
Proof.
  intros Hl Ha Hrel Hz.
  pose proof (land_ffff_range) as R16. pose proof (land_ff_range) as R8.
  destruct mode; try (exfalso; apply Hrel; reflexivity);
    cbn [address_mode_handlers getAccumulator getImplied] in Hz; try discriminate; injection Hz as <-;
    unfold getAbsoluteX, getAbsoluteY, getImmediate, getIndirect, getXIndexedIndirect,
      getIndirectYIndexed, getZeropage, getZeropageXIndexed, getZeropageYIndexed, js_and_opt;
    try apply R16; try (specialize (R8 (to_int32 (js_add (JA args) (x r)))); lia);
    try (specialize (R8 (to_int32 (js_add (JA args) (y r)))); lia);
    try (specialize (R8 (int32_of (JA args))); lia).
  unfold getAbsolute. replace (shl8 JU) with 0 by reflexivity. rewrite Z.lor_0_l.
  destruct args as [|o1 [|o2 [|o3 rest]]]; cbn in Hl; try lia.
  - replace (int32_of (JA [])) with 0 by reflexivity. lia.
  - inversion Ha as [|? ? Ho _]; subst. destruct o1 as [b|].
    + cbn in Ho. unfold int32_of. cbn [js_number array_to_string elem_to_string].
      rewrite js_number_dec, to_int32_small by lia. lia.
    + replace (int32_of (JA [None])) with 0 by reflexivity. lia.
  - unfold int32_of. rewrite js_number_pair. replace (to_int32 None) with 0 by reflexivity. lia.
Qed.

(** Every instruction [executeInstruction] runs, with any addressing mode
    and the [args] [decodeInstruction] passes, keeps A, X, Y, SP and the status within a byte, PC within
    [0 .. 0xFFFF] and every memory cell within a byte, when they start so:
    handlers mask what they compute, and memory stores go through the
    [Uint8Array]. *)
Theorem executeInstruction_keeps_ranges (name : Mnemonic) (mode : AddrMode)
    (args : list (option Z)) (r : Regs) (m : Mem) :
  (List.length args <= 2)%nat -> Forall arg_ok args ->
  regs_in_range r -> mem_bytes m ->
  regs_in_range (fst (executeInstruction name mode args r m)) /\
  mem_bytes (snd (executeInstruction name mode args r m)).
Proof. intros _ _. apply handler_in_range. Qed.

(** ** Flags of BIT and of the shifts *)

(** [BIT] sets Z when [A & M] is 0, copies bit 6 of M into V and bit 3 of
    M (the mask [0x08]) into N; A, memory and the other status bits are
    kept. *)
Theorem BIT_flags (loc : Z) (r : Regs) (m : Mem) :
  snd (BIT loc r m) = m /\
  fst (BIT loc r m) = with_status r (status (fst (BIT loc r m))) /\
  forall i, 0 <= i ->
    Z.testbit (status (fst (BIT loc r m))) i =
    if i =? 7 then Z.testbit (m loc) 3
    else if i =? 6 then Z.testbit (m loc) 6
    else if i =? 1 then (Z.land (a r) (m loc) =? 0)
    else Z.testbit (status r) i.
Proof.
  unfold BIT. cbn [fst snd status with_status]. split; [reflexivity|]. split; [reflexivity|].
  intros i Hi. rewrite !testbit_flag_if by exact Hi.
  assert (T3 : truthy (Z.land (m loc) 0x08) = Z.testbit (m loc) 3) by (apply (truthy_land_pow2 _ 3); lia).
  assert (T6 : truthy (Z.land (m loc) 0x40) = Z.testbit (m loc) 6) by (apply (truthy_land_pow2 _ 6); lia).
  rewrite T3, T6.
  destruct (Z.eqb_spec i 7) as [->|H7]; [reflexivity|].
  destruct (Z.eqb_spec i 6) as [->|H6]; [reflexivity|].
  replace (Z.testbit 0x40 i) with false
    by (symmetry; change 0x40 with (2 ^ 6); rewrite Z.pow2_bits_eqb by lia; apply Z.eqb_neq; lia).
  replace (Z.testbit 0x80 i) with false
    by (symmetry; change 0x80 with (2 ^ 7); rewrite Z.pow2_bits_eqb by lia; apply Z.eqb_neq; lia).
  destruct (Z.eqb_spec i 1) as [->|H1]; [reflexivity|].
  replace (Z.testbit 0x02 i) with false
    by (symmetry; change 0x02 with (2 ^ 1); rewrite Z.pow2_bits_eqb by lia; apply Z.eqb_neq; lia).
  reflexivity.
Qed.

Lemma byte_fact (P : Z -> bool) :
  forallb P (map Z.of_nat (seq 0 256)) = true -> forall v, 0 <= v < 256 -> P v = true.
Proof. apply byte_forall. Qed.

Lemma lsr_byte_facts (v : Z) : 0 <= v < 256 ->
  Z.land (Z.shiftr v 1) 0xFF = v / 2 /\ truthy (Z.land v 0x01) = Z.odd v /\
  truthy (Z.land (v / 2) 0x80) = false.
Proof.
  intros Hv.
  pose proof (byte_fact (fun v => (Z.land (Z.shiftr v 1) 0xFF =? v / 2)
      && Bool.eqb (truthy (Z.land v 0x01)) (Z.odd v) && negb (truthy (Z.land (v / 2) 0x80)))
      ltac:(vm_compute; reflexivity) v Hv) as H.
  apply andb_true_iff in H as [H H3]. apply andb_true_iff in H as [H1 H2].
  apply Z.eqb_eq in H1. apply Bool.eqb_prop in H2. apply negb_true_iff in H3. auto.
Qed.

Lemma asl_byte_facts (v : Z) : 0 <= v < 256 ->
  Z.land (Z.shiftl v 1) 0xFF = (2 * v) mod 256 /\ truthy (Z.land v 0x80) = Z.testbit v 7 /\
  truthy (Z.land ((2 * v) mod 256) 0x80) = Z.testbit v 6.
Proof.
  intros Hv.
  pose proof (byte_fact (fun v => (Z.land (Z.shiftl v 1) 0xFF =? (2 * v) mod 256)
      && Bool.eqb (truthy (Z.land v 0x80)) (Z.testbit v 7)
      && Bool.eqb (truthy (Z.land ((2 * v) mod 256) 0x80)) (Z.testbit v 6))
      ltac:(vm_compute; reflexivity) v Hv) as H.
  apply andb_true_iff in H as [H H3]. apply andb_true_iff in H as [H1 H2].
  apply Z.eqb_eq in H1. apply Bool.eqb_prop in H2. apply Bool.eqb_prop in H3. auto.
Qed.

Lemma testbit_zn_carry (v : Z) (c : bool) (s : Z) :
  Z.testbit (set_zn v (flag_if c 0x01 s)) 0 = c /\
  Z.testbit (set_zn v (flag_if c 0x01 s)) 1 = (v =? 0) /\
  Z.testbit (set_zn v (flag_if c 0x01 s)) 7 = truthy (Z.land v 0x80).
Proof.
  rewrite !testbit_set_zn, !testbit_flag_if by lia. cbn. auto.
Qed.

(** [LSR] on the accumulator or on a byte of memory stores [v / 2], moves
    bit 0 of [v] into C, sets Z when the result is 0 and always clears N. *)
Theorem LSR_halves_and_clears_N (target : option Z) (r : Regs) (m : Mem) :
  let v := match target with None => a r | Some loc => m loc end in
  0 <= v < 256 -> match target with Some loc => in_mem loc = true | None => True end ->
  let res := LSR target r m in
  match target with None => a (fst res) | Some loc => snd res loc end = v / 2 /\
  Z.testbit (status (fst res)) 0 = Z.odd v /\
  Z.testbit (status (fst res)) 1 = (v / 2 =? 0) /\
  Z.testbit (status (fst res)) 7 = false.
Proof.
  intros v Hv Hin res. destruct (lsr_byte_facts v Hv) as (E1 & E2 & E3).
  unfold res, LSR, shift_op. destruct target as [loc|]; cbn [fst snd a status with_a with_status] in *.
  - rewrite mem_set_same by exact Hin. fold v. rewrite E1.
    assert (E4 : Z.land (v / 2) 0xFF = v / 2) by (apply byte_land_ff; split; [apply Z.div_pos; lia | apply Z.div_lt_upper_bound; lia]). rewrite E4.
    destruct (testbit_zn_carry (v / 2) (truthy (Z.land v 0x01)) (status r)) as (T0 & T1 & T7).
    rewrite T0, T1, T7, E2, E3. auto.
  - fold v. rewrite E1.
    destruct (testbit_zn_carry (v / 2) (truthy (Z.land v 0x01)) (status r)) as (T0 & T1 & T7).
    rewrite T0, T1, T7, E2, E3. auto.
Qed.

(** [ASL] on the accumulator or on a byte of memory stores [2v mod 256],
    moves bit 7 of [v] into C, sets Z when the result is 0 and N from bit 6
    of [v]. *)
Theorem ASL_doubles (target : option Z) (r : Regs) (m : Mem) :
  let v := match target with None => a r | Some loc => m loc end in
  0 <= v < 256 -> match target with Some loc => in_mem loc = true | None => True end ->
  let res := ASL target r m in
  match target with None => a (fst res) | Some loc => snd res loc end = (2 * v) mod 256 /\
  Z.testbit (status (fst res)) 0 = Z.testbit v 7 /\
  Z.testbit (status (fst res)) 1 = ((2 * v) mod 256 =? 0) /\
  Z.testbit (status (fst res)) 7 = Z.testbit v 6.
Proof.
  intros v Hv Hin res. destruct (asl_byte_facts v Hv) as (E1 & E2 & E3).
  unfold res, ASL, shift_op. destruct target as [loc|]; cbn [fst snd a status with_a with_status] in *.
  - rewrite mem_set_same by exact Hin. fold v. rewrite E1.
    assert (E4 : Z.land ((2 * v) mod 256) 0xFF = (2 * v) mod 256) by (apply byte_land_ff; apply Z.mod_pos_bound; lia).
    rewrite E4.
    destruct (testbit_zn_carry ((2 * v) mod 256) (truthy (Z.land v 0x80)) (status r)) as (T0 & T1 & T7).
    rewrite T0, T1, T7, E2, E3. auto.
  - fold v. rewrite E1.
    destruct (testbit_zn_carry ((2 * v) mod 256) (truthy (Z.land v 0x80)) (status r)) as (T0 & T1 & T7).
    rewrite T0, T1, T7, E2, E3. auto.
Qed.

(** ** What memory an instruction writes *)

Lemma mem_set_changed (m m' : Mem) (l v i : Z) :
  mem_set m' l v i <> m i -> i = l \/ m' i <> m i.
Proof.
  intros H. destruct (Z.eq_dec i l) as [->|Hne]; [left; reflexivity|].
  right. rewrite mem_set_other in H by exact Hne. exact H.
Qed.

Lemma handler_frame (name : Mnemonic) (op : Operand) (r : Regs) (m : Mem) (i : Z) :
  0 <= sp r < 256 ->
  snd (handler name op r m) i <> m i -> (0x0100 <= i < 0x0200) \/ op = ONum i.
Proof.
  intros Hs.
  pose proof (land_ff_range (sp r - 1)) as S1.
  pose proof (land_ff_range (Z.land (sp r - 1) 0xFF - 1)) as S2.
  destruct name; cbn [handler]; try destruct op;
  cbn [with_location with_target];
  unfold ADC, SBC, AND, EOR, ORA, logical, BIT, CMP, CPX, CPY, compare, DEC, INC, DEX, DEY, INX, INY,
    LDA, LDX, LDY, STA, STX, STY, ASL, LSR, ROL, ROR, shift_op, BCC, BCS, BEQ, BNE, BMI, BPL, BVC, BVS,
    branch, BRK, JMP, JSR, NOP, PHA, PHP, PLA, PLP, RTI, RTS, SEC, SED, SEI, CLC, CLD, CLI, CLV,
    set_flag, clear_flag, TAX, TAY, TSX, TXA, TYA, TXS, push;
  repeat match goal with |- context [snd (if ?c then _ else _)] => destruct c end;
  cbn [fst snd sp with_sp with_pc with_status with_a with_x with_y status pc a x y];
  intros H;
  repeat match type of H with
  | mem_set _ _ _ _ <> _ => apply mem_set_changed in H as [H|H]; [subst i|]
  end;
  try (exfalso; apply H; reflexivity);
  try (right; reflexivity); left; lia.
Qed.

(** An instruction run by [executeInstruction] changes memory only at the
    address its resolver returned or in the stack page [0x0100 .. 0x01FF]
    (pushes of [PHA], [PHP], [JSR] and [BRK]). *)
Theorem executeInstruction_memory_frame (name : Mnemonic) (mode : AddrMode)
    (args : list (option Z)) (r : Regs) (m : Mem) (i : Z) :
  0 <= sp r < 256 ->
  snd (executeInstruction name mode args r m) i <> m i ->
  (0x0100 <= i < 0x0200) \/ address_mode_handlers mode args r m = ONum i.
Proof. apply handler_frame. Qed.

(** ** Witnesses *)

(** A = [0x42] pushed and pulled with SP = [0xFD]. *)
Lemma PHA_PLA_round_trip_witness :
  fst (PLA (fst (PHA (mkRegs 0x42 0 0 0x0600 0xFD 0) (fun _ => 0)))
           (snd (PHA (mkRegs 0x42 0 0 0x0600 0xFD 0) (fun _ => 0)))) =
  with_status (mkRegs 0x42 0 0 0x0600 0xFD 0) (set_zn 0x42 0).
Proof. apply (PHA_PLA_round_trip (mkRegs 0x42 0 0 0x0600 0xFD 0) (fun _ => 0)); cbn; lia. Defined.

(** Status [0x24] pushed and pulled with SP = [0x00] (the stack wraps). *)
Lemma PHP_PLP_round_trip_witness :
  fst (PLP (fst (PHP (mkRegs 0 0 0 0x0600 0x00 0x24) (fun _ => 0)))
           (snd (PHP (mkRegs 0 0 0 0x0600 0x00 0x24) (fun _ => 0)))) =
  with_status (mkRegs 0 0 0 0x0600 0x00 0x24) (Z.land 0x24 (Z.lnot 0x30)).
Proof. apply (PHP_PLP_round_trip (mkRegs 0 0 0 0x0600 0x00 0x24) (fun _ => 0)); cbn; lia. Defined.

(** [JSR $1234] from PC = [0x0603], then [RTS]. *)
Lemma JSR_RTS_round_trip_witness :
  fst (RTS (fst (JSR 0x1234 (mkRegs 0 0 0 0x0603 0xFD 0) (fun _ => 0)))
           (snd (JSR 0x1234 (mkRegs 0 0 0 0x0603 0xFD 0) (fun _ => 0)))) =
  mkRegs 0 0 0 0x0603 0xFD 0.
Proof. apply (JSR_RTS_round_trip 0x1234 (mkRegs 0 0 0 0x0603 0xFD 0) (fun _ => 0)); cbn; lia. Defined.

(** [BRK] at PC = [0x0601] with status [0x24], then [RTI]. *)
Lemma BRK_RTI_round_trip_witness :
  fst (RTI (fst (BRK (mkRegs 0 0 0 0x0601 0xFD 0x24) (fun _ => 0)))
           (snd (BRK (mkRegs 0 0 0 0x0601 0xFD 0x24) (fun _ => 0)))) =
  with_pc (with_status (mkRegs 0 0 0 0x0601 0xFD 0x24) (Z.land 0x24 (Z.lnot 0x30)))
          (Z.land (0x0601 + 1) 0xFFFF).
Proof. apply (BRK_RTI_round_trip (mkRegs 0 0 0 0x0601 0xFD 0x24) (fun _ => 0)); cbn; lia. Defined.

(** [ROL A] then [ROR A] with A = [0x81] and Carry set. *)
Lemma ROL_ROR_round_trip_witness :
  fst (ROR None (fst (ROL None (mkRegs 0x81 0 0 0x0600 0xFD 0x01) (fun _ => 0)))
               (snd (ROL None (mkRegs 0x81 0 0 0x0600 0xFD 0x01) (fun _ => 0)))) =
  with_status (mkRegs 0x81 0 0 0x0600 0xFD 0x01) (set_zn 0x81 0x01).
Proof. apply (ROL_ROR_round_trip (mkRegs 0x81 0 0 0x0600 0xFD 0x01) (fun _ => 0)); cbn; lia. Defined.

(** [SBC $10] with A = [0x50] and [0x30] at [0x10]. *)
Lemma SBC_is_ADC_of_complement_witness :
  fst (SBC 0x10 (mkRegs 0x50 0 0 0x0600 0xFD 0x01) (fun _ => 0x30)) =
  fst (ADC 0x10 (mkRegs 0x50 0 0 0x0600 0xFD 0x01) (mem_set (fun _ => 0x30) 0x10 (Z.lxor 0x30 0xFF))).
Proof.
  apply (SBC_is_ADC_of_complement 0x10 (mkRegs 0x50 0 0 0x0600 0xFD 0x01) (fun _ => 0x30));
    [reflexivity | cbn; lia | cbn; lia].
Defined.

(** [INC $10] then [DEC $10] on the byte [0xFF]. *)
Lemma INC_DEC_round_trip_witness :
  fst (DEC 0x10 (fst (INC 0x10 (mkRegs 0 0 0 0x0600 0xFD 0) (fun _ => 0xFF)))
               (snd (INC 0x10 (mkRegs 0 0 0 0x0600 0xFD 0) (fun _ => 0xFF)))) =
  with_status (mkRegs 0 0 0 0x0600 0xFD 0) (set_zn 0xFF 0).
Proof.
  apply (INC_DEC_round_trip 0x10 (mkRegs 0 0 0 0x0600 0xFD 0) (fun _ => 0xFF));
    [reflexivity | cbn; lia].
Defined.

(** [JMP $1234] at [0x0600] lands at 0. *)
Lemma loop_JMP_JSR_absolute_target_zero_witness :
  pc (regs (next (fun _ => 3)
    (mkMachine (mkRegs 0 0 0 0x0600 0xFD 0)
       (fun i => if i =? 0x0600 then 0x4C else if i =? 0x0601 then 0x34 else if i =? 0x0602 then 0x12 else 0)
       0 0))) = 0.
Proof.
  apply (loop_JMP_JSR_absolute_target_zero (fun _ => 3) _ 0x4C);
    [reflexivity | reflexivity | left; reflexivity].
Defined.

(** Operand [0x10] with X = 5 and Y = 12: Zero Page,X reads [0x0A5]
    ([Number("105") & 0xFF = 165]), Zero Page,Y reads [1612 & 0xFF = 76]. *)
Lemma zeropage_indexed_modes_concatenate_witness :
  address_mode_handlers M_zpgX [Some 0x10] (mkRegs 0 5 12 0x0602 0xFD 0) (fun _ => 0) = ONum 165 /\
  address_mode_handlers M_zpgY [Some 0x10] (mkRegs 0 5 12 0x0602 0xFD 0) (fun _ => 0) = ONum 76.
Proof.
  pose proof (zeropage_indexed_modes_concatenate 0x10 (mkRegs 0 5 12 0x0602 0xFD 0) (fun _ => 0)
                ltac:(lia) ltac:(cbn; lia) ltac:(cbn; lia)) as H.
  cbv zeta in H. destruct H as (H1 & H2 & _). rewrite H1, H2. split; reflexivity.
Defined.

(** A taken branch with displacement 5 at PC = [0x0602] (1538) goes to
    [15385], a backward one with [0xFB] to [0x05FD]. *)
Lemma loop_branch_displacement_witness :
  branch true (address_mode_handlers M_rel [Some 5] (mkRegs 0 0 0 0x0602 0xFD 0) (fun _ => 0))
    (mkRegs 0 0 0 0x0602 0xFD 0) (fun _ => 0) = (mkRegs 0 0 0 15385 0xFD 0, fun _ => 0) /\
  branch true (address_mode_handlers M_rel [Some 0xFB] (mkRegs 0 0 0 0x0602 0xFD 0) (fun _ => 0))
    (mkRegs 0 0 0 0x0602 0xFD 0) (fun _ => 0) = (mkRegs 0 0 0 0x05FD 0xFD 0, fun _ => 0).
Proof.
  rewrite (loop_branch_displacement 5 (mkRegs 0 0 0 0x0602 0xFD 0) (fun _ => 0)) by (cbn; lia).
  rewrite (loop_branch_displacement 0xFB (mkRegs 0 0 0 0x0602 0xFD 0) (fun _ => 0)) by (cbn; lia).
  split; reflexivity.
Defined.

(** [NOP] at [0x0600] is dispatched, then three more calls change nothing. *)
Lemma loop_frozen_after_dispatch_witness :
  let s := mkMachineJS (mkRegs 0 0 0 0x0600 0xFD 0) (fun _ => 0xEA) (NNum 0) 0 in
  js_regs (run_src 3 (next_src s)) = js_regs (next_src s) /\
  js_mem (run_src 3 (next_src s)) = js_mem (next_src s) /\
  js_total (run_src 3 (next_src s)) = js_total (next_src s) + Z.of_nat 3.
Proof.
  apply (loop_frozen_after_dispatch _ (mkOpCode mNOP M_impl 1) 3). vm_compute. reflexivity.
Defined.

(** One click of the step button from the reset state. *)
Lemma step_button_single_call_witness :
  let s := mkMachineJS (mkRegs 0 0 0 0x0600 0xFD 0) (fun _ => 0xEA) (NNum 0) 0 in
  step_button 5 s = next_src s /\ js_gt_zero (js_cycles (next_src s)) = false.
Proof. apply step_button_single_call. reflexivity. Defined.

(** A 16 + 4 + 8192 byte iNES file whose reset vector is [0x8000]. *)
Lemma readRom_ines_image_witness :
  pc (e_regs (fst (readRom_onload
        ([0x4E; 0x45; 0x53; 0x1A; 1; 1; 0; 0; 0; 0; 0; 0; 0; 0; 0; 0] ++ [0x00; 0x80; 0; 0] ++
         repeat 0 (Z.to_nat 8192))
        (mkEmu (mkRegs 0 0 0 0xC000 0xFF 0) (fun _ => 0) (fun _ => 0) false)))) = 0x8000.
Proof.
  destruct (readRom_ines_image [0x4E; 0x45; 0x53; 0x1A; 1; 1; 0; 0; 0; 0; 0; 0; 0; 0; 0; 0]
              [0x00; 0x80; 0; 0] (repeat 0 (Z.to_nat 8192))
              (mkEmu (mkRegs 0 0 0 0xC000 0xFF 0) (fun _ => 0) (fun _ => 0) false)
              eq_refl eq_refl ltac:(vm_compute; reflexivity) ltac:(unfold zlen; cbn; lia))
    as (_ & _ & _ & Hr & _).
  rewrite Hr. reflexivity.
Defined.

(** A 3-byte file: PC comes from the reset vector [0xC000] already in
    memory. *)
Lemma readRom_small_file_loads_nothing_witness :
  pc (e_regs (fst (readRom_onload [1; 2; 3]
        (mkEmu (mkRegs 0 0 0 0 0xFF 0)
           (fun i => if i =? 0xFFFD then 0xC0 else 0) (fun _ => 0) false)))) = 0xC000.
Proof.
  destruct (readRom_small_file_loads_nothing [1; 2; 3]
              (mkEmu (mkRegs 0 0 0 0 0xFF 0) (fun i => if i =? 0xFFFD then 0xC0 else 0) (fun _ => 0) false)
              ltac:(unfold zlen; cbn; lia)) as (_ & Hr).
  rewrite Hr. reflexivity.
Defined.

(** A file of [0x10000 + 8192 + 17] bytes without a header. *)
Lemma readRom_oversize_changes_nothing_witness :
  snd (readRom_onload (repeat 0 (Z.to_nat (0x10000 + 8192 + 17)))
         (mkEmu (mkRegs 0 0 0 0xC000 0xFF 0) (fun _ => 0) (fun _ => 0) false)) = true.
Proof.
  destruct (readRom_oversize_changes_nothing (repeat 0 (Z.to_nat (0x10000 + 8192 + 17)))
              (mkEmu (mkRegs 0 0 0 0xC000 0xFF 0) (fun _ => 0) (fun _ => 0) false)
              ltac:(vm_compute; reflexivity)) as (H & _).
  exact H.
Defined.

(** Absolute mode on the one-byte array [[0x34]] gives [0x34]. *)
Lemma resolvers_stay_in_memory_witness : 0 <= 0x34 < 0x10000.
Proof.
  apply (resolvers_stay_in_memory M_abs [Some 0x34] (mkRegs 0 0 0 0x0600 0xFD 0) (fun _ => 0) 0x34);
    [cbn; lia | repeat constructor; cbn; lia | discriminate | vm_compute; reflexivity].
Defined.

(** [ADC #$50] with A = [0xF0]. *)
Lemma executeInstruction_keeps_ranges_witness :
  regs_in_range (fst (executeInstruction mADC M_imm [Some 0x50] (mkRegs 0xF0 0 0 0x0602 0xFD 0x01) (fun _ => 0x80))) /\
  mem_bytes (snd (executeInstruction mADC M_imm [Some 0x50] (mkRegs 0xF0 0 0 0x0602 0xFD 0x01) (fun _ => 0x80))).
Proof.
  apply executeInstruction_keeps_ranges;
    [cbn; lia | repeat constructor; cbn; lia | unfold regs_in_range; cbn; lia | intros i; lia].
Defined.

(** [LSR $10] on [0x81]. *)
Lemma LSR_halves_and_clears_N_witness :
  snd (LSR (Some 0x10) (mkRegs 0 0 0 0x0602 0xFD 0) (fun _ => 0x81)) 0x10 = 0x81 / 2 /\
  Z.testbit (status (fst (LSR (Some 0x10) (mkRegs 0 0 0 0x0602 0xFD 0) (fun _ => 0x81)))) 0 = Z.odd 0x81 /\
  Z.testbit (status (fst (LSR (Some 0x10) (mkRegs 0 0 0 0x0602 0xFD 0) (fun _ => 0x81)))) 1 = (0x81 / 2 =? 0) /\
  Z.testbit (status (fst (LSR (Some 0x10) (mkRegs 0 0 0 0x0602 0xFD 0) (fun _ => 0x81)))) 7 = false.
Proof.
  apply (LSR_halves_and_clears_N (Some 0x10) (mkRegs 0 0 0 0x0602 0xFD 0) (fun _ => 0x81));
    [cbn; lia | reflexivity].
Defined.

(** [ASL A] on [0xC1]. *)
Lemma ASL_doubles_witness :
  a (fst (ASL None (mkRegs 0xC1 0 0 0x0601 0xFD 0) (fun _ => 0))) = (2 * 0xC1) mod 256 /\
  Z.testbit (status (fst (ASL None (mkRegs 0xC1 0 0 0x0601 0xFD 0) (fun _ => 0)))) 0 = Z.testbit 0xC1 7 /\
  Z.testbit (status (fst (ASL None (mkRegs 0xC1 0 0 0x0601 0xFD 0) (fun _ => 0)))) 1 = ((2 * 0xC1) mod 256 =? 0) /\
  Z.testbit (status (fst (ASL None (mkRegs 0xC1 0 0 0x0601 0xFD 0) (fun _ => 0)))) 7 = Z.testbit 0xC1 6.
Proof.
  apply (ASL_doubles None (mkRegs 0xC1 0 0 0x0601 0xFD 0) (fun _ => 0)); [cbn; lia | exact I].
Defined.

(** [STA $10] with A = [0x42] changes the byte at [0x10], its operand. *)
Lemma executeInstruction_memory_frame_witness :
  (0x0100 <= 0x10 < 0x0200) \/
  address_mode_handlers M_zpg [Some 0x10] (mkRegs 0x42 0 0 0x0602 0xFD 0) (fun _ => 0) = ONum 0x10.
Proof.
  apply (executeInstruction_memory_frame mSTA M_zpg [Some 0x10] (mkRegs 0x42 0 0 0x0602 0xFD 0) (fun _ => 0));
    [cbn; lia | vm_compute; discriminate].
Defined.
